(** * dental-ai-chatbot: the booking and conversation handlers of backend/server.js

    The development embeds the request handlers [POST /api/chatbot/message]
    and [POST /api/chatbot/confirm] of [backend/server.js], with their helpers
    [upsertUser], [ensureSession] and [logMessage], over a model of the four
    Postgres tables of the README schema (users, chat_sessions, chat_messages,
    appointments, with the partial unique index [uniq_appointments_time]).

    A handler is a finite program of awaited operations (SQL statements sent
    through [query], and the one [fetch] to the interpreter service).  The
    storage executes one statement atomically; a sequential run executes a
    handler alone, a schedule interleaves the statements of several handlers.

    What lies outside the repository is a parameter: [Date.parse], the text
    to timestamp conversion of Postgres, and the answers of the interpreter
    service.  The [created_at] columns (DEFAULT NOW()) are left out: no
    modelled handler branches on them.  Request fields are strings when
    present, as the request surface has them; a request reaches a handler
    after the [auth] middleware has accepted its token. *)

From Stdlib Require Import ZArith List String Bool Lia Permutation DecimalString.
Import ListNotations.
#[local] Set Warnings "-register-all".
Local Open Scope string_scope.
Local Open Scope Z_scope.

(** ** JavaScript values, as far as the handlers inspect them *)

Module Js.

(** A JSON-shaped value.  Numbers are integers; an object is the list of its
    own properties, each key once. *)
Inductive value : Type :=
| Undefined
| Null
| Bool (b : bool)
| Num (n : Z)
| Str (s : string)
| Arr (items : list value)
| Obj (props : list (string * value)).

(** [!!v] *)
Definition truthy (v : value) : bool :=
  match v with
  | Undefined | Null => false
  | Bool b => b
  | Num n => negb (n =? 0)
  | Str s => negb (s =? EmptyString)%string
  | Arr _ | Obj _ => true
  end.

Fixpoint lookup (k : string) (props : list (string * value)) : value :=
  match props with
  | [] => Undefined
  | (k', v) :: rest => if (k' =? k)%string then v else lookup k rest
  end.

(** [v?.k] for one of the property names the handlers read; none of them is
    a property of a string, a number, a boolean or an array. *)
Definition get (v : value) (k : string) : value :=
  match v with
  | Obj props => lookup k props
  | _ => Undefined
  end.

(** [a || b] *)
Definition or (a b : value) : value := if truthy a then a else b.

(** [a ?? b] *)
Definition nullish (a b : value) : value :=
  match a with
  | Undefined | Null => b
  | _ => a
  end.

(** A request field that is a string when present: [!field]. *)
Definition present (field : option string) : bool :=
  match field with
  | Some s => negb (s =? EmptyString)%string
  | None => false
  end.

Definition of_field (field : option string) : value :=
  match field with
  | Some s => Str s
  | None => Undefined
  end.

(** The string held by a field that passed the [!field] test. *)
Definition text (field : option string) : string :=
  match field with
  | Some s => s
  | None => EmptyString
  end.


(** [String(n)] for an integer. *)
Definition decimal (n : Z) : string := NilZero.string_of_int (Z.to_int n).

(** [JSON.parse(JSON.stringify(v))]: a property whose value is undefined is
    dropped, an undefined item of an array becomes null. *)
Fixpoint through_json (v : value) : value :=
  match v with
  | Arr items =>
      Arr (map (fun item => match item with
                            | Undefined => Null
                            | _ => through_json item
                            end) items)
  | Obj props =>
      Obj ((fix keep (ps : list (string * value)) : list (string * value) :=
              match ps with
              | [] => []
              | (k, Undefined) :: rest => keep rest
              | (k, x) :: rest => (k, through_json x) :: keep rest
              end) props)
  | _ => v
  end.

End Js.

(** ** The tables *)

Record User := mkUser {
  u_id : Z;
  u_email : string;
  u_password_hash : string;
  u_name : option string
}.

Record Session := mkSession {
  s_id : Z;
  s_user_id : Z;
  s_session_token : string
}.

Record Message := mkMessage {
  m_id : Z;
  m_user_id : Z;
  m_session_token : string;
  m_role : string;
  m_content : Js.value;
  m_meta : Js.value
}.

Record Appointment := mkAppointment {
  a_id : Z;
  a_user_id : Z;
  a_scheduled_at : Z;
  a_status : string;
  a_notes : option string
}.

(** A table is the list of its rows in insertion order, next to the SERIAL
    sequence that feeds its [id] column. *)
Record DB := mkDB {
  users : list User;
  users_seq : Z;
  chat_sessions : list Session;
  chat_sessions_seq : Z;
  chat_messages : list Message;
  chat_messages_seq : Z;
  appointments : list Appointment;
  appointments_seq : Z
}.

Definition empty_db : DB := mkDB [] 1 [] 1 [] 1 [] 1.

(** ** Errors a handler can catch *)

Inductive PgCode : Type :=
| unique_violation          (* 23505 *)
| foreign_key_violation     (* 23503 *)
| not_null_violation        (* 23502 *)
| invalid_datetime_format   (* 22007 *)
| invalid_text_representation.  (* 22P02 *)

Inductive Exn : Type :=
| PgError (code : PgCode)
| FetchFailed               (* fetch rejects: unreachable, timed out *)
| SyntaxError               (* r.json() rejects: the body is not JSON *)
| TypeError.                (* a property of undefined is read *)

Inductive Result (X : Type) : Type :=
| Ok (x : X)
| Rejected (e : Exn).
Arguments Ok {X} x.
Arguments Rejected {X} e.

(** ** The awaited operations *)

(** One constructor per SQL statement of server.js, indexed by the type of
    [res.rows], and one for the call to the interpreter service, whose answer
    is the parsed body when the body is JSON. *)
Inductive Op : Type -> Type :=
| UpsertUser (email name : string) : Op (list Z)
| SelectSession (token : string) : Op (list Z)
| InsertSession (user_id : Z) (token : string) : Op (list Z)
| InsertMessage (user_id : Z) (token : option string) (role : string)
                (content meta : Js.value) : Op unit
| SelectConfirmed (scheduled_at : string) : Op (list Z)
| InsertAppointment (user_id : Z) (scheduled_at : string) : Op (list Appointment)
| Fetch (url : string) (body : Js.value) : Op (option Js.value).

Definition is_confirmed (a : Appointment) : bool := (a_status a =? "confirmed")%string.

Definition user_exists (id : Z) (db : DB) : bool :=
  existsb (fun u => u_id u =? id) (users db).

(** What the handlers use and the repository does not define. *)
Class Platform := {
  (** [Date.parse]; [None] is NaN. *)
  Date_parse : string -> option Z;
  (** The conversion of a text parameter to a TIMESTAMP, done by Postgres. *)
  pg_timestamp : string -> option Z;
  (** The interpreter service, as seen through [fetch]. *)
  interpreter : string -> Js.value -> Result (option Js.value);
  (** The text node-postgres sends for a parameter that is an array or an
      object, where the column is TEXT. *)
  pg_text : Js.value -> string;
  (** What Postgres reads, for a JSONB column, from a parameter that is a
      string or an array; [None] when the text sent is not JSON. *)
  pg_jsonb : Js.value -> option Js.value;
  (** [process.env.PY_SERVICE_URL || 'http://localhost:8001'] *)
  PY_SERVICE_URL : string
}.

Section Storage.

Context `{Platform}.

Definition bump_users (db : DB) : DB :=
  mkDB (users db) (users_seq db + 1) (chat_sessions db) (chat_sessions_seq db)
       (chat_messages db) (chat_messages_seq db) (appointments db) (appointments_seq db).

Definition set_users (l : list User) (db : DB) : DB :=
  mkDB l (users_seq db) (chat_sessions db) (chat_sessions_seq db)
       (chat_messages db) (chat_messages_seq db) (appointments db) (appointments_seq db).

Definition bump_sessions (db : DB) : DB :=
  mkDB (users db) (users_seq db) (chat_sessions db) (chat_sessions_seq db + 1)
       (chat_messages db) (chat_messages_seq db) (appointments db) (appointments_seq db).

Definition set_sessions (l : list Session) (db : DB) : DB :=
  mkDB (users db) (users_seq db) l (chat_sessions_seq db)
       (chat_messages db) (chat_messages_seq db) (appointments db) (appointments_seq db).

Definition bump_messages (db : DB) : DB :=
  mkDB (users db) (users_seq db) (chat_sessions db) (chat_sessions_seq db)
       (chat_messages db) (chat_messages_seq db + 1) (appointments db) (appointments_seq db).

Definition set_messages (l : list Message) (db : DB) : DB :=
  mkDB (users db) (users_seq db) (chat_sessions db) (chat_sessions_seq db)
       l (chat_messages_seq db) (appointments db) (appointments_seq db).

Definition bump_appointments (db : DB) : DB :=
  mkDB (users db) (users_seq db) (chat_sessions db) (chat_sessions_seq db)
       (chat_messages db) (chat_messages_seq db) (appointments db) (appointments_seq db + 1).

Definition set_appointments (l : list Appointment) (db : DB) : DB :=
  mkDB (users db) (users_seq db) (chat_sessions db) (chat_sessions_seq db)
       (chat_messages db) (chat_messages_seq db) l (appointments_seq db).

(** INSERT INTO users (email, password_hash, name) VALUES ($1, 'hash_demo', $2)
    ON CONFLICT (email) DO UPDATE SET name=EXCLUDED.name RETURNING id.
    The sequence is advanced whether or not the row is new. *)
Definition rename (email name : string) (u : User) : User :=
  if (u_email u =? email)%string
  then mkUser (u_id u) (u_email u) (u_password_hash u) (Some name)
  else u.

Definition upsert_user (email name : string) (db : DB) : Result (list Z) * DB :=
  let id := users_seq db in
  let db1 := bump_users db in
  match find (fun u => (u_email u =? email)%string) (users db) with
  | Some u => (Ok [u_id u], set_users (map (rename email name) (users db)) db1)
  | None =>
      if user_exists id db
      then (Rejected (PgError unique_violation), db1)
      else (Ok [id], set_users (users db ++ [mkUser id email "hash_demo" (Some name)]) db1)
  end.

(** SELECT id FROM chat_sessions WHERE session_token=$1 *)
Definition select_session (token : string) (db : DB) : list Z :=
  map s_id (filter (fun s => (s_session_token s =? token)%string) (chat_sessions db)).

(** INSERT INTO chat_sessions (user_id, session_token) VALUES ($1, $2) RETURNING id *)
Definition insert_session (user_id : Z) (token : string) (db : DB) : Result (list Z) * DB :=
  let id := chat_sessions_seq db in
  let db1 := bump_sessions db in
  if existsb (fun s => s_id s =? id) (chat_sessions db)
  then (Rejected (PgError unique_violation), db1)
  else if negb (user_exists user_id db)
  then (Rejected (PgError foreign_key_violation), db1)
  else (Ok [id], set_sessions (chat_sessions db ++ [mkSession id user_id token]) db1).

(** INSERT INTO chat_messages (user_id, session_token, role, content, meta)
    VALUES ($1, $2, $3, $4, $5); session_token and content are NOT NULL,
    content is TEXT and meta is JSONB. *)
Definition is_null (v : Js.value) : bool :=
  match v with
  | Js.Undefined | Js.Null => true
  | _ => false
  end.

(** What a TEXT column holds, and gives back as a string, for a parameter
    that is not null. *)
Definition text_column (v : Js.value) : Js.value :=
  match v with
  | Js.Str s => Js.Str s
  | Js.Bool true => Js.Str "true"
  | Js.Bool false => Js.Str "false"
  | Js.Num n => Js.Str (Js.decimal n)
  | _ => Js.Str (pg_text v)
  end.

(** What a JSONB column holds, and gives back parsed, for a parameter; an
    object is sent as [JSON.stringify] of it, undefined and null as NULL.
    The keys stay in the order the handler wrote them. *)
Definition jsonb_column (v : Js.value) : option Js.value :=
  match v with
  | Js.Undefined | Js.Null => Some Js.Null
  | Js.Obj _ => Some (Js.through_json v)
  | Js.Bool _ | Js.Num _ => Some v
  | Js.Str _ | Js.Arr _ => pg_jsonb v
  end.

Definition insert_message (user_id : Z) (token : option string) (role : string)
    (content meta : Js.value) (db : DB) : Result unit * DB :=
  match jsonb_column meta with
  | None => (Rejected (PgError invalid_text_representation), db)
  | Some stored_meta =>
      let id := chat_messages_seq db in
      let db1 := bump_messages db in
      match token with
      | None => (Rejected (PgError not_null_violation), db1)
      | Some tok =>
          if is_null content
          then (Rejected (PgError not_null_violation), db1)
          else if existsb (fun m => m_id m =? id) (chat_messages db)
          then (Rejected (PgError unique_violation), db1)
          else if negb (user_exists user_id db)
          then (Rejected (PgError foreign_key_violation), db1)
          else (Ok tt,
                set_messages
                  (chat_messages db ++
                     [mkMessage id user_id tok role (text_column content) stored_meta])
                  db1)
      end
  end.

(** SELECT 1 FROM appointments WHERE scheduled_at = $1 AND status = 'confirmed' LIMIT 1 *)
Definition booked (t : Z) (db : DB) : list Appointment :=
  filter (fun a => (a_scheduled_at a =? t) && is_confirmed a) (appointments db).

Definition select_confirmed (scheduled_at : string) (db : DB) : Result (list Z) :=
  match pg_timestamp scheduled_at with
  | None => Rejected (PgError invalid_datetime_format)
  | Some t => Ok (firstn 1 (map (fun _ => 1) (booked t db)))
  end.

(** INSERT INTO appointments (user_id, scheduled_at, status, notes)
    VALUES ($1, $2, 'confirmed', 'Booked via chatbot') RETURNING ...
    under CREATE UNIQUE INDEX uniq_appointments_time
    ON appointments (scheduled_at) WHERE status = 'confirmed'. *)
Definition insert_appointment (user_id : Z) (scheduled_at : string) (db : DB)
    : Result (list Appointment) * DB :=
  match pg_timestamp scheduled_at with
  | None => (Rejected (PgError invalid_datetime_format), db)
  | Some t =>
      let id := appointments_seq db in
      let db1 := bump_appointments db in
      if existsb (fun a => a_id a =? id) (appointments db)
      then (Rejected (PgError unique_violation), db1)
      else match booked t db with
           | _ :: _ => (Rejected (PgError unique_violation), db1)
           | [] =>
               if negb (user_exists user_id db)
               then (Rejected (PgError foreign_key_violation), db1)
               else let row := mkAppointment id user_id t "confirmed" (Some "Booked via chatbot") in
                    (Ok [row], set_appointments (appointments db ++ [row]) db1)
           end
  end.

(** One awaited operation, executed atomically. *)
Definition exec {X : Type} (op : Op X) (db : DB) : Result X * DB :=
  match op in Op X return Result X * DB with
  | UpsertUser email name => upsert_user email name db
  | SelectSession token => (Ok (select_session token db), db)
  | InsertSession user_id token => insert_session user_id token db
  | InsertMessage user_id token role content meta =>
      insert_message user_id token role content meta db
  | SelectConfirmed scheduled_at => (select_confirmed scheduled_at db, db)
  | InsertAppointment user_id scheduled_at => insert_appointment user_id scheduled_at db
  | Fetch url body => (interpreter url body, db)
  end.

End Storage.

(** ** Handlers as programs of awaited operations *)

Inductive Prog (A : Type) : Type :=
| Ret (a : A)
| Throw (e : Exn)
| Await (X : Type) (op : Op X) (k : Result X -> Prog A).
Arguments Ret {A} a.
Arguments Throw {A} e.
Arguments Await {A X} op k.

Fixpoint bind {A B : Type} (p : Prog A) (f : A -> Prog B) : Prog B :=
  match p with
  | Ret a => f a
  | Throw e => Throw e
  | Await op k => Await op (fun r => bind (k r) f)
  end.

(** [try { p } catch (e) { h e }] *)
Fixpoint try_catch {A : Type} (p : Prog A) (h : Exn -> Prog A) : Prog A :=
  match p with
  | Ret a => Ret a
  | Throw e => h e
  | Await op k => Await op (fun r => try_catch (k r) h)
  end.

(** [await op]: the value of a fulfilled promise, the exception of a rejected one. *)
Definition await {X : Type} (op : Op X) : Prog X :=
  Await op (fun r => match r with Ok x => Ret x | Rejected e => Throw e end).

Declare Scope prog_scope.
Delimit Scope prog_scope with prog.
Notation "x <- p ;; q" := (bind p (fun x => q))
  (at level 61, p at next level, right associativity) : prog_scope.
Notation "p ;; q" := (bind p (fun _ => q))
  (at level 61, right associativity) : prog_scope.
Local Open Scope prog_scope.

Inductive Response : Type :=
| Respond (status : Z) (body : Js.value).

(** [req.user.sub] and the fields the handlers destructure from [req.body]. *)
Record Request := mkRequest {
  sub : option string;
  message : option string;
  session_id : option string;
  scheduled_at : option string;
  confirm : option bool
}.

(** [req.user?.sub || 'user_1'] *)
Definition subject (req : Request) : string :=
  if Js.present (sub req) then Js.text (sub req) else "user_1".

Definition upsertUser (sub : string) : Prog Z :=
  let email := (sub ++ "@demo.local")%string in
  let name := "Demo User" in
  rows <- await (UpsertUser email name) ;;
  match rows with
  | id :: _ => Ret id
  | [] => Throw TypeError
  end.

Definition ensureSession (userId : Z) (sessionToken : option string) : Prog (option Z) :=
  if negb (Js.present sessionToken) then Ret None
  else
    let tok := Js.text sessionToken in
    found <- await (SelectSession tok) ;;
    if (0 <? List.length found)%nat
    then match found with id :: _ => Ret (Some id) | [] => Throw TypeError end
    else
      ins <- await (InsertSession userId tok) ;;
      match ins with id :: _ => Ret (Some id) | [] => Throw TypeError end.

Definition logMessage (userId : Z) (sessionToken : option string) (role : string)
    (content meta : Js.value) : Prog unit :=
  await (InsertMessage userId sessionToken role content meta).

Definition json (r : option Js.value) : Prog Js.value :=
  match r with
  | Some data => Ret data
  | None => Throw SyntaxError
  end.

Definition assistant_content (data : Js.value) : Js.value :=
  Js.or (Js.get data "reply") (Js.or (Js.get (Js.get data "data") "reply") (Js.Str EmptyString)).

Definition assistant_meta (data : Js.value) : Js.value :=
  let candidate :=
    Js.or (Js.get data "appointment_candidate")
          (Js.get (Js.get data "data") "appointment_candidate") in
  if Js.truthy candidate
  then Js.Obj
         [ ("appointment_candidate", candidate);
           ("intent", Js.or (Js.get data "intent") (Js.get (Js.get data "data") "intent"));
           ("needs_confirmation",
            Js.nullish (Js.get data "needs_confirmation")
              (Js.nullish (Js.get (Js.get data "data") "needs_confirmation")
                 (Js.Bool false))) ]
  else Js.Obj
         [ ("intent",
            Js.or (Js.get data "intent")
              (Js.or (Js.get (Js.get data "data") "intent") (Js.Str "chat"))) ].

Definition row_json (a : Appointment) : Js.value :=
  Js.Obj [ ("id", Js.Num (a_id a));
           ("scheduled_at", Js.Num (a_scheduled_at a));
           ("status", Js.Str (a_status a)) ].

Definition missing_message : Response :=
  Respond 400 (Js.Obj [("error", Js.Str "missing message")]).

Definition python_unreachable : Response :=
  Respond 500 (Js.Obj [("error", Js.Str "failed to reach python service")]).

Definition missing_fields : Response :=
  Respond 400 (Js.Obj [ ("ok", Js.Bool false); ("error", Js.Str "bad_request");
                        ("message", Js.Str "missing session_id or scheduled_at") ]).

Definition not_iso8601 : Response :=
  Respond 400 (Js.Obj [ ("ok", Js.Bool false); ("error", Js.Str "bad_request");
                        ("message", Js.Str "scheduled_at must be ISO8601") ]).

Definition declined : Response :=
  Respond 200 (Js.Obj [("ok", Js.Bool true); ("status", Js.Str "declined")]).

Definition conflict : Response :=
  Respond 409 (Js.Obj [ ("ok", Js.Bool false); ("error", Js.Str "conflict");
                        ("message",
                         Js.Str "That time is already booked. Please pick another slot.") ]).

Definition server_error : Response :=
  Respond 500 (Js.Obj [ ("ok", Js.Bool false); ("error", Js.Str "server_error");
                        ("message", Js.Str "failed to confirm appointment") ]).

Definition confirmed (rows : list Appointment) : Response :=
  Respond 200 (Js.Obj [ ("ok", Js.Bool true); ("status", Js.Str "confirmed");
                        ("appointment",
                         match rows with a :: _ => row_json a | [] => Js.Undefined end) ]).

Section Handlers.

Context `{Platform}.

(** app.post('/api/chatbot/message', auth, ...) *)
Definition post_message (req : Request) : Prog Response :=
  try_catch
    (if negb (Js.present (message req)) then Ret missing_message
     else
       let text := Js.text (message req) in
       userId <- upsertUser (subject req) ;;
       ensureSession userId (session_id req) ;;
       logMessage userId (session_id req) "user" (Js.Str text) (Js.Obj []) ;;
       r <- await (Fetch (PY_SERVICE_URL ++ "/simulate")
                     (Js.Obj [ ("message", Js.Str text);
                               ("user_id", Js.Str (subject req));
                               ("session_id", Js.of_field (session_id req)) ])) ;;
       data <- json r ;;
       logMessage userId (session_id req) "assistant"
         (assistant_content data) (assistant_meta data) ;;
       Ret (Respond 200 (Js.Obj [("ok", Js.Bool true); ("data", data)])))
    (fun _ => Ret python_unreachable).

(** [!confirm] *)
Definition refused (flag : option bool) : bool :=
  match flag with
  | Some true => false
  | _ => true
  end.

(** app.post('/api/chatbot/confirm', auth, ...) *)
Definition post_confirm (req : Request) : Prog Response :=
  try_catch
    (if negb (Js.present (session_id req)) || negb (Js.present (scheduled_at req))
     then Ret missing_fields
     else
       let at_ := Js.text (scheduled_at req) in
       match Date_parse at_ with
       | None => Ret not_iso8601
       | Some _ =>
           userId <- upsertUser (subject req) ;;
           ensureSession userId (session_id req) ;;
           if refused (confirm req) then Ret declined
           else
             found <- await (SelectConfirmed at_) ;;
             if (0 <? List.length found)%nat then Ret conflict
             else
               ins <- await (InsertAppointment userId at_) ;;
               try_catch
                 (match ins with
                  | a :: _ =>
                      logMessage userId (session_id req) "assistant"
                        (Js.Str ("Confirmed your appointment for " ++ at_ ++ "."))
                        (Js.Obj [ ("appointment_id", Js.Num (a_id a));
                                  ("status", Js.Str "confirmed") ])
                  | [] => Throw TypeError
                  end)
                 (fun _ => Ret tt) ;;
               Ret (confirmed ins)
       end)
    (fun _ => Ret server_error).

End Handlers.

(** ** Running handlers against the storage *)

Inductive Outcome (A : Type) : Type :=
| Done (a : A)
| Uncaught (e : Exn).
Arguments Done {A} a.
Arguments Uncaught {A} e.

(** What one thread saw: the operation it awaited and how it was settled. *)
Definition Event : Type := { X : Type & (Op X * Result X)%type }.

Definition event {X : Type} (op : Op X) (r : Result X) : Event := existT _ X (op, r).

Record Thread := mkThread {
  code : Prog Response;
  seen : list Event
}.

Record System := mkSystem {
  store : DB;
  pool : list Thread
}.

Fixpoint replace_nth {A : Type} (i : nat) (x : A) (l : list A) : list A :=
  match l, i with
  | [], _ => []
  | _ :: rest, O => x :: rest
  | y :: rest, S j => y :: replace_nth j x rest
  end.

Section Semantics.

Context `{Platform}.

(** A handler running alone: every awaited operation is executed at once. *)
Fixpoint run {A : Type} (p : Prog A) (db : DB) : Outcome A * DB :=
  match p with
  | Ret a => (Done a, db)
  | Throw e => (Uncaught e, db)
  | Await op k => let '(r, db1) := exec op db in run (k r) db1
  end.

(** Thread [i] executes the operation it is waiting on; a finished thread,
    or an index outside the pool, leaves the system as it is. *)
Definition step (i : nat) (s : System) : System :=
  match nth_error (pool s) i with
  | Some (mkThread (Await op k) seen) =>
      let '(r, db1) := exec op (store s) in
      mkSystem db1 (replace_nth i (mkThread (k r) (seen ++ [event op r])) (pool s))
  | _ => s
  end.

Definition schedule (order : list nat) (s : System) : System :=
  fold_left (fun s i => step i s) order s.

Definition spawn (ps : list (Prog Response)) : list Thread :=
  map (fun p => mkThread p []) ps.

Definition response_of (s : System) (i : nat) : option Response :=
  match nth_error (pool s) i with
  | Some (mkThread (Ret r) _) => Some r
  | _ => None
  end.

Definition seen_by (s : System) (i : nat) : list Event :=
  match nth_error (pool s) i with
  | Some t => seen t
  | None => []
  end.

End Semantics.

(** ** Specification vocabulary *)

(** The constraints of the schema that the handlers rely on: every stored id
    was drawn from its sequence, [users.email] is UNIQUE, and no two confirmed
    appointments share a scheduled timestamp. *)
Definition single_booking (db : DB) : Prop :=
  NoDup (map a_scheduled_at (filter is_confirmed (appointments db))).

Record consistent (db : DB) : Prop := mkConsistent {
  users_fresh : Forall (fun u => u_id u < users_seq db) (users db);
  sessions_fresh : Forall (fun s => s_id s < chat_sessions_seq db) (chat_sessions db);
  messages_fresh : Forall (fun m => m_id m < chat_messages_seq db) (chat_messages db);
  appointments_fresh : Forall (fun a => a_id a < appointments_seq db) (appointments db);
  emails_unique : NoDup (map u_email (users db));
  one_per_slot : single_booking db
}.

(** Every operation a program can await, on any branch, satisfies [P]. *)
Inductive only (P : forall X, Op X -> Prop) {A : Type} : Prog A -> Prop :=
| only_Ret a : only P (Ret a)
| only_Throw e : only P (Throw e)
| only_Await X (op : Op X) k :
    P X op -> (forall r, only P (k r)) -> only P (Await op k).

(** The operations of the identity step: the user upsert and the session
    lookup and insert. *)
Definition identity_op (X : Type) (op : Op X) : Prop :=
  match op with
  | UpsertUser _ _ | SelectSession _ | InsertSession _ _ => True
  | _ => False
  end.

(** The transcript and the appointment table, rows and sequences. *)
Definition same_bookings_and_transcript (db db1 : DB) : Prop :=
  appointments db1 = appointments db /\ appointments_seq db1 = appointments_seq db /\
  chat_messages db1 = chat_messages db /\ chat_messages_seq db1 = chat_messages_seq db.

(** A complete execution of a program against an environment that settles
    each awaited operation as it likes. *)
Fixpoint completes {A : Type} (p : Prog A) (seen : list Event) (out : Outcome A) : Prop :=
  match p with
  | Ret a => seen = [] /\ out = Done a
  | Throw e => seen = [] /\ out = Uncaught e
  | Await op k => exists r rest, seen = event op r :: rest /\ completes (k r) rest out
  end.

(** The pre-check of the confirm handler answered with no row. *)
Definition found_no_booking (e : Event) : bool :=
  match e with
  | existT _ X (op, r) =>
      match op in Op X return Result X -> bool with
      | SelectConfirmed _ => fun r => match r with Ok [] => true | _ => false end
      | _ => fun _ => false
      end r
  end.

(** The insert of the confirm handler was rejected by a unique index. *)
Definition hit_unique_index (e : Event) : bool :=
  match e with
  | existT _ X (op, r) =>
      match op in Op X return Result X -> bool with
      | InsertAppointment _ _ =>
          fun r => match r with Rejected (PgError unique_violation) => true | _ => false end
      | _ => fun _ => false
      end r
  end.

Definition lost_race (seen : list Event) : bool :=
  existsb found_no_booking seen && existsb hit_unique_index seen.

Definition users_with_email (email : string) (db : DB) : list User :=
  filter (fun u => (u_email u =? email)%string) (users db).

Definition sessions_of (user_id : Z) (token : string) (db : DB) : list Session :=
  filter (fun s => (s_user_id s =? user_id) && (s_session_token s =? token)%string)
         (chat_sessions db).

Definition email_of (sub : string) : string := (sub ++ "@demo.local")%string.

(** Any operation but the insert into appointments. *)
Definition other_than_booking (X : Type) (op : Op X) : Prop :=
  match op with
  | InsertAppointment _ _ => False
  | _ => True
  end.

Definition on_op (P : forall X, Op X -> Prop) (e : Event) : Prop :=
  match e with
  | existT _ X (op, _) => P X op
  end.

(** Thread [t] is program [p0] after the operations of [seen t]: whatever
    completes what is left completes [p0] from the start. *)
Definition residual (p0 : Prog Response) (t : Thread) : Prop :=
  forall l out, completes (code t) l out -> completes p0 (seen t ++ l)%list out.

(** The claim that a confirm call which loses the race is answered with
    Conflict. *)
Definition race_answers_conflict (s : System) (i : nat) : Prop :=
  lost_race (seen_by s i) = true -> response_of s i = Some conflict.

Definition tracked (ps : list (Prog Response)) (s : System) : Prop :=
  forall j p0 t,
    nth_error ps j = Some p0 -> nth_error (pool s) j = Some t -> residual p0 t.

(** Program [p], having awaited the operations of [seen] with the results
    recorded there, stands at [q]. *)
Fixpoint reaches {A : Type} (p : Prog A) (seen : list Event) (q : Prog A)
    {struct seen} : Prop :=
  match seen with
  | [] => q = p
  | e :: rest =>
      match p with
      | Await op k => exists r, e = event op r /\ reaches (k r) rest q
      | _ => False
      end
  end.

(** Every thread stands where its handler stands after what it saw. *)
Definition followed (ps : list (Prog Response)) (s : System) : Prop :=
  forall j p0 t,
    nth_error ps j = Some p0 -> nth_error (pool s) j = Some t ->
    reaches p0 (seen t) (code t).


Section StatedClaims.

Context `{Platform}.

(** A decline that is acknowledged, writes a transcript entry and leaves
    the appointments alone. *)
Definition decline_records_rejection (req : Request) (db : DB) : Prop :=
  refused (confirm req) = true ->
  fst (run (post_confirm req) db) = Done declined /\
  (exists m, In m (chat_messages (snd (run (post_confirm req) db))) /\
             ~ In m (chat_messages db)) /\
  appointments (snd (run (post_confirm req) db)) = appointments db.

(** A message whose interpretation fails and that is logged together with
    an assistant message. *)
Definition failure_is_explained (req : Request) (db : DB) : Prop :=
  Js.present (message req) = true ->
  (forall url body data, interpreter url body <> Ok (Some data)) ->
  (exists m, In m (chat_messages (snd (run (post_message req) db))) /\
             ~ In m (chat_messages db) /\ m_role m = "user" /\
             m_content m = Js.Str (Js.text (message req))) /\
  (exists m, In m (chat_messages (snd (run (post_message req) db))) /\
             ~ In m (chat_messages db) /\ m_role m = "assistant").


(** A token that, presented by [user_id], ends up on a session row of
    [user_id]. *)
Definition rebound_to (user_id : Z) (token : string) (db : DB) : Prop :=
  sessions_of user_id token (snd (run (ensureSession user_id (Some token)) db)) <> [].

End StatedClaims.

(** ** A concrete platform and concrete requests *)

Definition demo_timestamp (s : string) : option Z :=
  if (s =? "2025-06-02T10:00:00Z")%string then Some 1748858400000 else None.

(** The interpreter service is down. *)
Definition offline : Platform := {|
  Date_parse := demo_timestamp;
  pg_timestamp := demo_timestamp;
  interpreter := fun _ _ => Rejected FetchFailed;
  pg_text := fun _ => "{}";
  pg_jsonb := fun _ => None;
  PY_SERVICE_URL := "http://localhost:8001"
|}.

Definition slot : string := "2025-06-02T10:00:00Z".

Definition alice_confirms : Request :=
  mkRequest (Some "alice") None (Some "sess-a") (Some slot) (Some true).

Definition bob_confirms : Request :=
  mkRequest (Some "bob") None (Some "sess-b") (Some slot) (Some true).

Definition alice_declines : Request :=
  mkRequest (Some "alice") None (Some "sess-a") (Some slot) (Some false).

Definition alice_writes : Request :=
  mkRequest (Some "alice") (Some "I need an appointment next Monday at 10am")
            (Some "sess-a") None None.

Definition no_message : Request :=
  mkRequest (Some "alice") (Some EmptyString) (Some "sess-a") None None.


Definition no_session : Request :=
  mkRequest (Some "alice") None None (Some slot) (Some false).

(** Alice and Bob both pass the pre-check before either inserts. *)
Definition both_prechecked_first : list nat := [0; 0; 0; 0; 1; 1; 1; 1; 0; 1; 0]%nat.

Definition raced : System :=
  @schedule offline both_prechecked_first
    (mkSystem empty_db (spawn [@post_confirm offline alice_confirms;
                               @post_confirm offline bob_confirms])).

(** Alice opened the session "shared"; Bob is a user too. *)
Definition alice_owns_shared : DB :=
  snd (@run offline _
         (bind (upsertUser "alice") (fun a =>
          bind (ensureSession a (Some "shared")) (fun _ =>
          upsertUser "bob")))
         empty_db).

(** ** The rest of server.js: authentication, token, health, history, purge *)

(** The payload of a token, as far as the handlers read it. *)
Record Decoded := mkDecoded {
  d_sub : option string;
  d_role : option string
}.

(** The jsonwebtoken library, with [JWT_SECRET] fixed. *)
Class Jwt := {
  (** [jwt.sign(payload, JWT_SECRET, { expiresIn: '5m' })] *)
  jwt_sign : Decoded -> string;
  (** [jwt.verify(token, JWT_SECRET)]; [None] when it throws. *)
  jwt_verify : string -> option Decoded
}.

(** [ORDER BY created_at ASC]: the storage arranges the selected rows by a
    column the tables leave out; all that is known here is that it returns
    the rows it was given. *)
Class Clock := {
  by_created_at : list Message -> list Message;
  by_created_at_perm : forall l, Permutation (by_created_at l) l
}.

(** What a handler receives: the Authorization header, the JSON body and,
    on the two /api/chat_sessions/:session_id/messages routes, the path
    parameter. *)
Record Incoming := mkIncoming {
  authorization : option string;
  body_message : option string;
  body_session_id : option string;
  body_scheduled_at : option string;
  body_confirm : option bool;
  params_session_id : string
}.

Definition missing_token : Response :=
  Respond 401 (Js.Obj [("error", Js.Str "missing token")]).

Definition invalid_token : Response :=
  Respond 401 (Js.Obj [("error", Js.Str "invalid token")]).

Definition health : Response :=
  Respond 200 (Js.Obj [("status", Js.Str "ok"); ("service", Js.Str "backend")]).

Definition python_down : Response :=
  Respond 503 (Js.Obj [("status", Js.Str "down")]).

Definition failed_to_fetch_messages : Response :=
  Respond 500 (Js.Obj [("ok", Js.Bool false); ("error", Js.Str "failed_to_fetch_messages")]).

Definition failed_to_delete_messages : Response :=
  Respond 500 (Js.Obj [("ok", Js.Bool false); ("error", Js.Str "failed_to_delete_messages")]).

Definition deleted : Response :=
  Respond 200 (Js.Obj [("ok", Js.Bool true); ("deleted", Js.Bool true)]).

(** [hdr.startsWith('Bearer ') ? hdr.slice(7) : null], on
    [req.headers['authorization'] || '']. *)
Definition bearer_token (authorization : option string) : option string :=
  let hdr := Js.text authorization in
  if prefix "Bearer " hdr then Some (substring 7 (length hdr - 7) hdr) else None.

(** function auth(req, res, next): the response it sends, or the payload it
    stores in [req.user] before it calls [next]. *)
Definition auth `{Jwt} (authorization : option string) : Response + Decoded :=
  let token := bearer_token authorization in
  if negb (Js.present token) then inl missing_token
  else match jwt_verify (Js.text token) with
       | Some decoded => inr decoded
       | None => inl invalid_token
       end.

(** [req], once [auth] has set [req.user]. *)
Definition request_of (decoded : Decoded) (i : Incoming) : Request :=
  mkRequest (d_sub decoded) (body_message i) (body_session_id i)
            (body_scheduled_at i) (body_confirm i).

Definition token_payload : Decoded := mkDecoded (Some "user_1") (Some "user").

(** app.post('/api/chatbot/token', ...) *)
Definition post_token `{Jwt} : Prog Response :=
  let payload := token_payload in
  let token := jwt_sign payload in
  try_catch (upsertUser (Js.text (d_sub payload)) ;; Ret tt) (fun _ => Ret tt) ;;
  Ret (Respond 200 (Js.Obj [("token", Js.Str token); ("expires_in", Js.Num 300)])).

(** [data.status], which throws on null. *)
Definition status_of (data : Js.value) : Prog Js.value :=
  if is_null data then Throw TypeError else Ret (Js.get data "status").

(** app.get('/health/python', ...) *)
Definition health_python `{Platform} : Prog Response :=
  try_catch
    (r <- await (Fetch (PY_SERVICE_URL ++ "/health") Js.Undefined) ;;
     data <- json r ;;
     status <- status_of data ;;
     Ret (Respond 200 (Js.Obj [("status", Js.or status (Js.Str "unknown"))])))
    (fun _ => Ret python_down).

Definition in_scope (user_id : Z) (token : string) (m : Message) : bool :=
  (m_user_id m =? user_id) && (m_session_token m =? token)%string.

(** SELECT role, content, meta, created_at FROM chat_messages
    WHERE user_id = $1 AND session_token = $2 ORDER BY created_at ASC *)
Definition select_messages `{Clock} (user_id : Z) (token : string) (db : DB)
    : list Message :=
  by_created_at (filter (in_scope user_id token) (chat_messages db)).

(** DELETE FROM chat_messages WHERE user_id = $1 AND session_token = $2 *)
Definition delete_messages (user_id : Z) (token : string) (db : DB) : DB :=
  set_messages (filter (fun m => negb (in_scope user_id token m)) (chat_messages db)) db.

(** A selected row, without the [created_at] the tables leave out. *)
Definition message_json (m : Message) : Js.value :=
  Js.Obj [("role", Js.Str (m_role m)); ("content", m_content m); ("meta", m_meta m)].

Definition listed (rows : list Message) : Response :=
  Respond 200 (Js.Obj [("ok", Js.Bool true); ("messages", Js.Arr (map message_json rows))]).

Section Routes.

Context `{Platform} `{Jwt} `{Clock}.

(** app.get('/api/chat_sessions/:session_id/messages', auth, ...), run alone. *)
Definition get_messages (req : Request) (sessionId : string) (db : DB) : Response * DB :=
  match run (upsertUser (subject req)) db with
  | (Done userId, db1) => (listed (select_messages userId sessionId db1), db1)
  | (Uncaught _, db1) => (failed_to_fetch_messages, db1)
  end.

(** app.delete('/api/chat_sessions/:session_id/messages', auth, ...), run alone. *)
Definition purge_messages (req : Request) (sessionId : string) (db : DB) : Response * DB :=
  match run (upsertUser (subject req)) db with
  | (Done userId, db1) => (deleted, delete_messages userId sessionId db1)
  | (Uncaught _, db1) => (failed_to_delete_messages, db1)
  end.

Inductive Route : Type :=
| GET_health
| GET_health_python
| POST_token
| POST_message
| POST_confirm
| GET_messages
| DELETE_messages.

(** The response a handler sent, if it sent one. *)
Definition answered (r : Outcome Response * DB) : option Response * DB :=
  match r with
  | (Done resp, db) => (Some resp, db)
  | (Uncaught _, db) => (None, db)
  end.

(** A route behind [auth]. *)
Definition behind_auth (i : Incoming) (db : DB)
    (handler : Request -> option Response * DB) : option Response * DB :=
  match auth (authorization i) with
  | inl rejected => (Some rejected, db)
  | inr decoded => handler (request_of decoded i)
  end.

(** One request, served alone. *)
Definition serve (route : Route) (i : Incoming) (db : DB) : option Response * DB :=
  match route with
  | GET_health => (Some health, db)
  | GET_health_python => answered (run health_python db)
  | POST_token => answered (run post_token db)
  | POST_message => behind_auth i db (fun req => answered (run (post_message req) db))
  | POST_confirm => behind_auth i db (fun req => answered (run (post_confirm req) db))
  | GET_messages =>
      behind_auth i db (fun req =>
        let '(resp, db1) := get_messages req (params_session_id i) db in (Some resp, db1))
  | DELETE_messages =>
      behind_auth i db (fun req =>
        let '(resp, db1) := purge_messages req (params_session_id i) db in (Some resp, db1))
  end.

(** Requests served one after the other. *)
Fixpoint serve_all (requests : list (Route * Incoming)) (db : DB)
    : list (option Response) * DB :=
  match requests with
  | [] => ([], db)
  | (route, i) :: rest =>
      let '(resp, db1) := serve route i db in
      let '(resps, db2) := serve_all rest db1 in
      (resp :: resps, db2)
  end.

Definition protected (route : Route) : bool :=
  match route with
  | POST_message | POST_confirm | GET_messages | DELETE_messages => true
  | _ => false
  end.

End Routes.

(** ** backend/db.js and the session id of the frontend *)

Record PgPool := mkPgPool {
  connectionString : option string;
  max : Z
}.

(** function getPool(): the module variable [pool] and
    [process.env.DATABASE_URL] are passed in; the answer is the pool, the
    module variable afterwards, and whether the warning was printed. *)
Definition getPool (DATABASE_URL : option string) (current : option PgPool)
    : PgPool * option PgPool * bool :=
  match current with
  | Some p => (p, Some p, false)
  | None =>
      let connectionString := DATABASE_URL in
      let p := mkPgPool connectionString 10 in
      (p, Some p, negb (Js.present connectionString))
  end.

(** One [getPool()] per query, under the environment of the moment. *)
Fixpoint getPool_each (environments : list (option string)) (current : option PgPool)
    : list (PgPool * bool) * option PgPool :=
  match environments with
  | [] => ([], current)
  | env :: rest =>
      let '(p, current1, warned) := getPool env current in
      let '(answers, final) := getPool_each rest current1 in
      ((p, warned) :: answers, final)
  end.

(** The initializer of useSessionId() in frontend/src/App.jsx: the value
    of localStorage under 'session_id' and the answer of
    [crypto.randomUUID()] are passed in. *)
Definition useSessionId (randomUUID : string) (stored : option string)
    : string * option string :=
  let existing := stored in
  if Js.present existing then (Js.text existing, stored)
  else let fresh := randomUUID in (fresh, Some fresh).

(** ** More concrete platforms and requests *)

(** Tokens that name their subject. *)
Definition demo_jwt : Jwt := {|
  jwt_sign := fun payload => (Js.text (d_sub payload) ++ "-token")%string;
  jwt_verify := fun token =>
    if (token =? "alice-token")%string then Some (mkDecoded (Some "alice") (Some "user"))
    else if (token =? "bob-token")%string then Some (mkDecoded (Some "bob") (Some "user"))
    else None
|}.

(** Rows come back in the order they were inserted. *)
Definition insertion_order : Clock := {|
  by_created_at := fun l => l;
  by_created_at_perm := fun l => Permutation_refl l
|}.

Definition proposal : Js.value :=
  Js.Obj [ ("reply", Js.Str "I can offer Monday at 10:00. Shall I book it?");
           ("appointment_candidate", Js.Str slot);
           ("intent", Js.Str "book");
           ("needs_confirmation", Js.Bool true) ].

(** The interpreter answers; Date.parse also accepts a bare year, which is
    no timestamp for the storage. *)
Definition online : Platform := {|
  Date_parse := fun s =>
    if (s =? "2025")%string then Some 1735689600000 else demo_timestamp s;
  pg_timestamp := demo_timestamp;
  interpreter := fun _ _ => Ok (Some proposal);
  pg_text := fun _ => "{}";
  pg_jsonb := fun _ => None;
  PY_SERVICE_URL := "http://localhost:8001"
|}.



Definition alice_posts : Incoming :=
  mkIncoming (Some "Bearer alice-token") (Some "I need an appointment next Monday at 10am")
             (Some "sess-a") None None "sess-a".

Definition alice_books : Incoming :=
  mkIncoming (Some "Bearer alice-token") None (Some "sess-a") (Some slot) (Some true)
             "sess-a".

Definition bob_reads_alices_session : Incoming :=
  mkIncoming (Some "Bearer bob-token") None None None None "sess-a".

Definition stranger_posts : Incoming :=
  mkIncoming (Some "Bearer forged") (Some "hello") (Some "sess-a") None None "sess-a".

Definition anonymous_purges : Incoming :=
  mkIncoming None None None None None "sess-a".

Definition bare_year : Request :=
  mkRequest (Some "alice") None (Some "sess-a") (Some "2025") (Some true).

(** Alice posted one message and booked the slot. *)
Definition after_booking : DB :=
  snd (@serve_all online demo_jwt insertion_order
         [(POST_message, alice_posts); (POST_confirm, alice_books)] empty_db).

(** ** Counting the inserts that succeeded *)

(** The event is an insert into appointments that the storage accepted, for
    a text that denotes timestamp [t]. *)
Definition booked_event `{Platform} (t : Z) (e : Event) : bool :=
  match e with
  | existT _ X (op, r) =>
      match op in Op X return Result X -> bool with
      | InsertAppointment _ at_ =>
          fun r => match r, pg_timestamp at_ with
                   | Ok _, Some t' => t' =? t
                   | _, _ => false
                   end
      | _ => fun _ => false
      end r
  end.

Definition bookings_seen `{Platform} (t : Z) (thread : Thread) : nat :=
  List.length (filter (booked_event t) (seen thread)).

Definition bookings_seen_by_all `{Platform} (t : Z) (s : System) : nat :=
  list_sum (map (bookings_seen t) (pool s)).

(** ** The storage keeps its constraints *)

Section StorageFacts.

Context `{Platform}.

Lemma Forall_lt_le {A : Type} (f : A -> Z) (n m : Z) (l : list A) :
  n <= m -> Forall (fun x => f x < n) l -> Forall (fun x => f x < m) l.
Proof.
  intros Hle Hall. eapply Forall_impl; [| exact Hall]. simpl. intros; lia.
Qed.

Lemma fresh_absent {A : Type} (f : A -> Z) (n : Z) (l : list A) :
  Forall (fun x => f x < n) l -> existsb (fun x => f x =? n) l = false.
Proof.
  induction 1 as [| x l Hx _ IH]; simpl; [reflexivity |].
  rewrite IH, orb_false_r. apply Z.eqb_neq. lia.
Qed.

Lemma Forall_snoc {A : Type} (P : A -> Prop) (l : list A) (x : A) :
  Forall P l -> P x -> Forall P (l ++ [x]).
Proof.
  intros Hl Hx. apply Forall_app. split; [exact Hl | constructor; [exact Hx | constructor]].
Qed.

Lemma NoDup_snoc {A : Type} (l : list A) (x : A) :
  NoDup l -> ~ In x l -> NoDup (l ++ [x]).
Proof.
  induction 1 as [| y l Hy Hnd IH]; simpl; intros Hx.
  - constructor; [intros [] | constructor].
  - constructor.
    + rewrite in_app_iff. simpl. intros [Hin | [Heq | []]]; [contradiction |].
      apply Hx. left. symmetry. exact Heq.
    + apply IH. intros Hin. apply Hx. right. exact Hin.
Qed.

Lemma find_email_none (email : string) (l : list User) :
  find (fun u => (u_email u =? email)%string) l = None -> ~ In email (map u_email l).
Proof.
  intros Hfind Hin. apply in_map_iff in Hin. destruct Hin as [u [Heq Hu]].
  apply (find_none _ _ Hfind) in Hu. simpl in Hu.
  rewrite Heq, String.eqb_refl in Hu. discriminate.
Qed.

Lemma rename_email (email name : string) (l : list User) :
  map u_email (map (rename email name) l) = map u_email l.
Proof.
  rewrite map_map. apply map_ext. intros u. unfold rename.
  destruct (u_email u =? email)%string; reflexivity.
Qed.

Lemma rename_fresh (email name : string) (n : Z) (l : list User) :
  Forall (fun u => u_id u < n) l -> Forall (fun u => u_id u < n) (map (rename email name) l).
Proof.
  intros Hall. apply Forall_map. eapply Forall_impl; [| exact Hall].
  intros u Hu. unfold rename. destruct (u_email u =? email)%string; exact Hu.
Qed.

Lemma rename_exists (email name : string) (id : Z) (l : list User) :
  existsb (fun u => u_id u =? id) (map (rename email name) l)
  = existsb (fun u => u_id u =? id) l.
Proof.
  induction l as [| u l IH]; simpl; [reflexivity |]. rewrite IH. f_equal.
  unfold rename. destruct (u_email u =? email)%string; reflexivity.
Qed.

Lemma booked_none (t : Z) (db : DB) :
  booked t db = [] -> ~ In t (map a_scheduled_at (filter is_confirmed (appointments db))).
Proof.
  unfold booked. intros Hnone Hin. apply in_map_iff in Hin.
  destruct Hin as [a [Heq Ha]]. apply filter_In in Ha. destruct Ha as [Ha Hc].
  assert (Hin : In a (filter (fun a => (a_scheduled_at a =? t) && is_confirmed a)
                        (appointments db))).
  { apply filter_In. split; [exact Ha |]. rewrite Hc, Heq, Z.eqb_refl. reflexivity. }
  rewrite Hnone in Hin. exact Hin.
Qed.

Lemma upsert_user_consistent (email name : string) (db : DB) :
  consistent db -> consistent (snd (upsert_user email name db)).
Proof.
  intros [Hu Hs Hm Ha He Hb]. unfold upsert_user.
  destruct (find _ (users db)) as [u |] eqn:Hfind; simpl.
  - constructor; simpl; try assumption.
    + apply rename_fresh. apply (Forall_lt_le u_id (users_seq db)); [lia | exact Hu].
    + rewrite rename_email. exact He.
  - unfold user_exists. rewrite (fresh_absent u_id _ _ Hu). simpl.
    constructor; simpl; try assumption.
    + apply Forall_snoc; simpl; [| lia].
      apply (Forall_lt_le u_id (users_seq db)); [lia | exact Hu].
    + rewrite map_app. simpl. apply NoDup_snoc; [exact He |].
      apply find_email_none. exact Hfind.
Qed.

Lemma insert_session_consistent (user_id : Z) (token : string) (db : DB) :
  consistent db -> consistent (snd (insert_session user_id token db)).
Proof.
  intros [Hu Hs Hm Ha He Hb]. unfold insert_session.
  rewrite (fresh_absent s_id _ _ Hs).
  assert (Hs1 : Forall (fun s => s_id s < chat_sessions_seq db + 1) (chat_sessions db))
    by (apply (Forall_lt_le s_id (chat_sessions_seq db)); [lia | exact Hs]).
  destruct (negb (user_exists user_id db)); simpl; constructor; simpl; try assumption.
  apply Forall_snoc; simpl; [exact Hs1 | lia].
Qed.

Lemma insert_message_consistent (user_id : Z) (token : option string) (role : string)
    (content meta : Js.value) (db : DB) :
  consistent db -> consistent (snd (insert_message user_id token role content meta db)).
Proof.
  intros [Hu Hs Hm Ha He Hb]. unfold insert_message.
  destruct (jsonb_column meta) as [stored |]; [| constructor; assumption].
  assert (Hm1 : Forall (fun m => m_id m < chat_messages_seq db + 1) (chat_messages db))
    by (apply (Forall_lt_le m_id (chat_messages_seq db)); [lia | exact Hm]).
  destruct token as [tok |]; [| constructor; simpl; assumption].
  destruct (is_null content); [constructor; simpl; assumption |].
  rewrite (fresh_absent m_id _ _ Hm).
  destruct (negb (user_exists user_id db)); simpl; constructor; simpl; try assumption.
  apply Forall_snoc; simpl; [exact Hm1 | lia].
Qed.

Lemma insert_appointment_consistent (user_id : Z) (scheduled_at : string) (db : DB) :
  consistent db -> consistent (snd (insert_appointment user_id scheduled_at db)).
Proof.
  intros [Hu Hs Hm Ha He Hb]. unfold insert_appointment.
  destruct (pg_timestamp scheduled_at) as [t |]; [| constructor; assumption].
  assert (Ha1 : Forall (fun a => a_id a < appointments_seq db + 1) (appointments db))
    by (apply (Forall_lt_le a_id (appointments_seq db)); [lia | exact Ha]).
  rewrite (fresh_absent a_id _ _ Ha).
  destruct (booked t db) as [| b rest] eqn:Hbooked;
    [| constructor; simpl; assumption].
  destruct (negb (user_exists user_id db)); simpl; constructor; simpl; try assumption.
  - apply Forall_snoc; simpl; [exact Ha1 | lia].
  - unfold single_booking. simpl. rewrite filter_app, map_app. simpl.
    apply NoDup_snoc; [exact Hb |]. apply booked_none. exact Hbooked.
Qed.

Lemma exec_consistent {X : Type} (op : Op X) (db : DB) :
  consistent db -> consistent (snd (exec op db)).
Proof.
  intros Hdb. destruct op; simpl; try exact Hdb.
  - apply upsert_user_consistent; exact Hdb.
  - apply insert_session_consistent; exact Hdb.
  - apply insert_message_consistent; exact Hdb.
  - apply insert_appointment_consistent; exact Hdb.
Qed.

Lemma empty_db_consistent : consistent empty_db.
Proof.
  constructor; simpl; constructor.
Qed.

End StorageFacts.

(** ** Programs: sequencing, catching, and what they can await *)

Section ProgramFacts.

Context `{Platform}.

Lemma run_bind {A B : Type} (p : Prog A) (f : A -> Prog B) (db : DB) :
  run (bind p f) db =
  match run p db with
  | (Done a, db1) => run (f a) db1
  | (Uncaught e, db1) => (Uncaught e, db1)
  end.
Proof.
  revert db. induction p as [a | e | X op k IH]; intros db; simpl; try reflexivity.
  destruct (exec op db) as [r db1]. apply IH.
Qed.

Lemma run_try_catch {A : Type} (p : Prog A) (h : Exn -> Prog A) (db : DB) :
  run (try_catch p h) db =
  match run p db with
  | (Done a, db1) => (Done a, db1)
  | (Uncaught e, db1) => run (h e) db1
  end.
Proof.
  revert db. induction p as [a | e | X op k IH]; intros db; simpl; try reflexivity.
  destruct (exec op db) as [r db1]. apply IH.
Qed.

Lemma run_await {X : Type} (op : Op X) (db : DB) :
  run (await op) db =
  match exec op db with
  | (Ok x, db1) => (Done x, db1)
  | (Rejected e, db1) => (Uncaught e, db1)
  end.
Proof.
  unfold await. simpl. destruct (exec op db) as [[x | e] db1]; reflexivity.
Qed.

Lemma run_consistent {A : Type} (p : Prog A) (db : DB) :
  consistent db -> consistent (snd (run p db)).
Proof.
  revert db. induction p as [a | e | X op k IH]; intros db Hdb; simpl; try exact Hdb.
  pose proof (exec_consistent op db Hdb) as Hstep.
  destruct (exec op db) as [r db1]. apply IH. exact Hstep.
Qed.

Lemma only_bind (P : forall X, Op X -> Prop) {A B : Type} (p : Prog A) (f : A -> Prog B) :
  only P p -> (forall a, only P (f a)) -> only P (bind p f).
Proof.
  intros Hp Hf. induction Hp as [a | e | X op k Hop _ IH]; simpl.
  - apply Hf.
  - constructor.
  - constructor; [exact Hop | exact IH].
Qed.

Lemma only_try_catch (P : forall X, Op X -> Prop) {A : Type} (p : Prog A)
    (h : Exn -> Prog A) :
  only P p -> (forall e, only P (h e)) -> only P (try_catch p h).
Proof.
  intros Hp Hh. induction Hp as [a | e | X op k Hop _ IH]; simpl.
  - constructor.
  - apply Hh.
  - constructor; [exact Hop | exact IH].
Qed.

Lemma only_await (P : forall X, Op X -> Prop) {X : Type} (op : Op X) :
  P X op -> only P (await op).
Proof.
  intros Hop. unfold await. constructor; [exact Hop |].
  intros [x | e]; constructor.
Qed.

(** A relation between stores that every permitted operation respects is
    respected by a whole run. *)
Lemma run_only (P : forall X, Op X -> Prop) (R : DB -> DB -> Prop) {A : Type}
    (p : Prog A) :
  (forall db, R db db) ->
  (forall X (op : Op X) db db1, P X op -> R db db1 -> R db (snd (exec op db1))) ->
  only P p ->
  forall db db1, R db db1 -> R db (snd (run p db1)).
Proof.
  intros Hrefl Hstep Hp. induction Hp as [a | e | X op k Hop _ IH];
    intros db db1 HR; simpl; try exact HR.
  pose proof (Hstep X op db db1 Hop HR) as HR1.
  destruct (exec op db1) as [r db2]. apply IH. exact HR1.
Qed.

Lemma identity_op_frame {X : Type} (op : Op X) (db db1 : DB) :
  identity_op X op ->
  same_bookings_and_transcript db db1 ->
  same_bookings_and_transcript db (snd (exec op db1)).
Proof.
  unfold same_bookings_and_transcript.
  destruct op; simpl; intros Hop Hsame; try contradiction; try exact Hsame.
  - unfold upsert_user. destruct (find _ (users db1)); simpl; [exact Hsame |].
    destruct (user_exists (users_seq db1) db1); exact Hsame.
  - unfold insert_session. destruct (existsb _ (chat_sessions db1)); [exact Hsame |].
    destruct (negb (user_exists user_id db1)); exact Hsame.
Qed.

Lemma identity_only_frame {A : Type} (p : Prog A) (db : DB) :
  only identity_op p -> same_bookings_and_transcript db (snd (run p db)).
Proof.
  intros Hp. apply (run_only identity_op same_bookings_and_transcript p).
  - intros d. repeat split.
  - intros X op d d1. apply identity_op_frame.
  - exact Hp.
  - repeat split.
Qed.

Lemma upsertUser_only (sub : string) : only identity_op (upsertUser sub).
Proof.
  unfold upsertUser. apply only_bind.
  - apply only_await. exact I.
  - intros [| id rest]; constructor.
Qed.

Lemma ensureSession_only (userId : Z) (token : option string) :
  only identity_op (ensureSession userId token).
Proof.
  unfold ensureSession. destruct (negb (Js.present token)); [constructor |].
  apply only_bind; [apply only_await; exact I |].
  intros found. destruct (0 <? List.length found)%nat.
  - destruct found; constructor.
  - apply only_bind; [apply only_await; exact I |].
    intros [| id rest]; constructor.
Qed.

(** The scheduler keeps the constraints of the storage, whatever the
    threads are. *)
Lemma step_consistent (i : nat) (s : System) :
  consistent (store s) -> consistent (store (step i s)).
Proof.
  intros Hs. unfold step. destruct (nth_error (pool s) i) as [[c l] |]; [| exact Hs].
  destruct c as [a | e | X op k]; try exact Hs.
  pose proof (exec_consistent op (store s) Hs) as Hstep.
  destruct (exec op (store s)) as [r db1]. exact Hstep.
Qed.

Lemma schedule_consistent (order : list nat) (s : System) :
  consistent (store s) -> consistent (store (schedule order s)).
Proof.
  revert s. induction order as [| i order IH]; intros s Hs; simpl; [exact Hs |].
  apply IH. apply step_consistent. exact Hs.
Qed.

End ProgramFacts.

(** ** Complete executions against an arbitrary environment *)

Section TraceFacts.

Context `{Platform}.

Lemma completes_bind {A B : Type} (p : Prog A) (f : A -> Prog B) l out :
  completes (bind p f) l out ->
  (exists a l1 l2, l = (l1 ++ l2)%list /\ completes p l1 (Done a) /\ completes (f a) l2 out)
  \/ (exists e, completes p l (Uncaught e) /\ out = Uncaught e).
Proof.
  revert l. induction p as [a | e | X op k IH]; intros l Hc; simpl in Hc.
  - left. exists a, [], l. repeat split. exact Hc.
  - right. exists e. destruct Hc as [-> ->]. repeat split.
  - destruct Hc as [r [rest [-> Hc]]]. apply IH in Hc.
    destruct Hc as [[a [l1 [l2 [-> [Hp Hf]]]]] | [e [Hp ->]]].
    + left. exists a, (event op r :: l1), l2. repeat split; [| exact Hf].
      simpl. exists r, l1. split; [reflexivity | exact Hp].
    + right. exists e. split; [| reflexivity]. simpl. exists r, rest.
      split; [reflexivity | exact Hp].
Qed.

Lemma completes_try_catch {A : Type} (p : Prog A) (h : Exn -> Prog A) l out :
  completes (try_catch p h) l out ->
  (exists a, completes p l (Done a) /\ out = Done a)
  \/ (exists e l1 l2, l = (l1 ++ l2)%list /\ completes p l1 (Uncaught e) /\ completes (h e) l2 out).
Proof.
  revert l. induction p as [a | e | X op k IH]; intros l Hc; simpl in Hc.
  - left. exists a. destruct Hc as [-> ->]. repeat split.
  - right. exists e, [], l. repeat split. exact Hc.
  - destruct Hc as [r [rest [-> Hc]]]. apply IH in Hc.
    destruct Hc as [[a [Hp ->]] | [e [l1 [l2 [-> [Hp Hh]]]]]].
    + left. exists a. split; [| reflexivity]. simpl. exists r, rest.
      split; [reflexivity | exact Hp].
    + right. exists e, (event op r :: l1), l2. repeat split; [| exact Hh].
      simpl. exists r, l1. split; [reflexivity | exact Hp].
Qed.

Lemma completes_await {X : Type} (op : Op X) l (out : Outcome X) :
  completes (await op) l out ->
  exists r, l = [event op r] /\
            out = match r with Ok x => Done x | Rejected e => Uncaught e end.
Proof.
  unfold await. simpl. intros [r [rest [-> Hc]]]. exists r.
  destruct r as [x | e]; simpl in Hc; destruct Hc as [-> ->]; split; reflexivity.
Qed.

Lemma only_weaken (P Q : forall X, Op X -> Prop) {A : Type} (p : Prog A) :
  (forall X op, P X op -> Q X op) -> only P p -> only Q p.
Proof.
  intros HPQ Hp. induction Hp as [a | e | X op k Hop _ IH]; constructor; auto.
Qed.

Lemma only_completes (P : forall X, Op X -> Prop) {A : Type} (p : Prog A) l out :
  only P p -> completes p l out -> Forall (on_op P) l.
Proof.
  intros Hp. revert l. induction Hp as [a | e | X op k Hop _ IH]; intros l Hc; simpl in Hc.
  - destruct Hc as [-> _]. constructor.
  - destruct Hc as [-> _]. constructor.
  - destruct Hc as [r [rest [-> Hc]]]. constructor; [exact Hop | exact (IH r rest Hc)].
Qed.

Lemma no_unique_hit (l : list Event) :
  Forall (on_op other_than_booking) l -> existsb hit_unique_index l = false.
Proof.
  induction 1 as [| e l He _ IH]; simpl; [reflexivity |]. rewrite IH, orb_false_r.
  destruct e as [X [op r]]. destruct op; simpl in He; try contradiction; reflexivity.
Qed.

Lemma identity_other (X : Type) (op : Op X) : identity_op X op -> other_than_booking X op.
Proof. destruct op; simpl; auto. Qed.

Lemma post_confirm_unique_hit req l resp :
  completes (post_confirm req) l (Done resp) ->
  existsb hit_unique_index l = true -> resp = server_error.
Proof.
  unfold post_confirm. intros Hc Hhit.
  apply completes_try_catch in Hc.
  destruct Hc as [[a [Hbody Hout]] | [e [l1 [l2 [_ [_ Hh]]]]]].
  2: { simpl in Hh. destruct Hh as [_ Hh]. inversion Hh. reflexivity. }
  exfalso.
  destruct (negb (Js.present (session_id req)) || negb (Js.present (scheduled_at req))).
  { simpl in Hbody. destruct Hbody as [-> _]. discriminate. }
  destruct (Date_parse (Js.text (scheduled_at req))).
  2: { simpl in Hbody. destruct Hbody as [-> _]. discriminate. }
  apply completes_bind in Hbody.
  destruct Hbody as [[uid [l1 [l2 [-> [Hup Hbody]]]]] | [e [_ Habs]]]; [| discriminate].
  apply completes_bind in Hbody.
  destruct Hbody as [[sess [l3 [l4 [-> [Hsess Hbody]]]]] | [e [_ Habs]]]; [| discriminate].
  pose proof (no_unique_hit _ (only_completes _ _ _ _
    (only_weaken _ _ _ identity_other (upsertUser_only _)) Hup)) as H1.
  pose proof (no_unique_hit _ (only_completes _ _ _ _
    (only_weaken _ _ _ identity_other (ensureSession_only _ _)) Hsess)) as H3.
  rewrite !existsb_app, H1, H3 in Hhit. simpl in Hhit.
  destruct (refused (confirm req)).
  { simpl in Hbody. destruct Hbody as [-> _]. discriminate. }
  apply completes_bind in Hbody.
  destruct Hbody as [[found [l5 [l6 [-> [Hsel Hbody]]]]] | [e [_ Habs]]]; [| discriminate].
  apply completes_await in Hsel. destruct Hsel as [r [-> _]].
  simpl in Hhit.
  destruct (0 <? List.length found)%nat.
  { simpl in Hbody. destruct Hbody as [-> _]. discriminate. }
  apply completes_bind in Hbody.
  destruct Hbody as [[ins [l7 [l8 [-> [Hins Hbody]]]]] | [e [_ Habs]]]; [| discriminate].
  apply completes_await in Hins. destruct Hins as [r' [-> Hr]].
  destruct r' as [rows | e]; [| discriminate].
  simpl in Hhit.
  assert (Hlog : only other_than_booking
    (try_catch
       match ins with
       | [] => Throw TypeError
       | a0 :: _ =>
           logMessage uid (session_id req) "assistant"
             (Js.Str ("Confirmed your appointment for " ++ Js.text (scheduled_at req) ++ "."))
             (Js.Obj [("appointment_id", Js.Num (a_id a0)); ("status", Js.Str "confirmed")])
       end (fun _ : Exn => Ret tt);; Ret (confirmed ins))).
  { apply only_bind; [| intros; constructor].
    apply only_try_catch; [| intros; constructor].
    destruct ins; [constructor |]. apply only_await. exact I. }
  rewrite (no_unique_hit _ (only_completes _ _ _ _ Hlog Hbody)) in Hhit. discriminate.
Qed.

Lemma reaches_ret {A : Type} (a : A) l (q : Prog A) :
  reaches (Ret a) l q -> l = [] /\ q = Ret a.
Proof. destruct l; simpl; intros Hr; [split; [reflexivity | exact Hr] | contradiction]. Qed.

Lemma reaches_throw {A : Type} (e : Exn) l (q : Prog A) :
  reaches (Throw e) l q -> l = [] /\ q = Throw e.
Proof. destruct l; simpl; intros Hr; [split; [reflexivity | exact Hr] | contradiction]. Qed.

Lemma reaches_snoc {A : Type} (p : Prog A) l {X : Type} (op : Op X) k (r : Result X) :
  reaches p l (Await op k) -> reaches p (l ++ [event op r])%list (k r).
Proof.
  revert p. induction l as [| e rest IH]; intros p Hr; simpl in Hr.
  - subst p. simpl. exists r. split; reflexivity.
  - destruct p as [a | ex | Y op' k']; try contradiction.
    destruct Hr as [r' [-> Hr]]. simpl. exists r'. split; [reflexivity |].
    apply IH. exact Hr.
Qed.

Lemma reaches_bind {A B : Type} (p : Prog A) (f : A -> Prog B) l q :
  reaches (bind p f) l q ->
  (exists q', reaches p l q' /\ q = bind q' f)
  \/ (exists a l1 l2, l = (l1 ++ l2)%list /\ reaches p l1 (Ret a) /\ reaches (f a) l2 q).
Proof.
  revert p. induction l as [| e rest IH]; intros p Hr.
  - left. exists p. split; [reflexivity | exact Hr].
  - destruct p as [a | ex | X op k]; cbn [bind] in Hr.
    + right. exists a, [], (e :: rest). split; [reflexivity |].
      split; [reflexivity | exact Hr].
    + simpl in Hr. contradiction.
    + simpl in Hr. destruct Hr as [r [-> Hr]]. apply IH in Hr.
      destruct Hr as [[q' [Hq ->]] | [a [l1 [l2 [-> [Hp Hf]]]]]].
      * left. exists q'. split; [| reflexivity]. simpl. exists r.
        split; [reflexivity | exact Hq].
      * right. exists a, (event op r :: l1), l2. split; [reflexivity |].
        split; [| exact Hf]. simpl. exists r. split; [reflexivity | exact Hp].
Qed.

Lemma reaches_try_catch {A : Type} (p : Prog A) (h : Exn -> Prog A) l q :
  reaches (try_catch p h) l q ->
  (exists q', reaches p l q' /\ q = try_catch q' h)
  \/ (exists e l1 l2, l = (l1 ++ l2)%list /\ reaches p l1 (Throw e) /\ reaches (h e) l2 q).
Proof.
  revert p. induction l as [| e rest IH]; intros p Hr.
  - left. exists p. split; [reflexivity | exact Hr].
  - destruct p as [a | ex | X op k]; cbn [try_catch] in Hr.
    + simpl in Hr. contradiction.
    + right. exists ex, [], (e :: rest). split; [reflexivity |].
      split; [reflexivity | exact Hr].
    + simpl in Hr. destruct Hr as [r [-> Hr]]. apply IH in Hr.
      destruct Hr as [[q' [Hq ->]] | [ex [l1 [l2 [-> [Hp Hh]]]]]].
      * left. exists q'. split; [| reflexivity]. simpl. exists r.
        split; [reflexivity | exact Hq].
      * right. exists ex, (event op r :: l1), l2. split; [reflexivity |].
        split; [| exact Hh]. simpl. exists r. split; [reflexivity | exact Hp].
Qed.

Lemma only_reaches (P : forall X, Op X -> Prop) {A : Type} (p : Prog A) l q :
  only P p -> reaches p l q -> Forall (on_op P) l.
Proof.
  intros Hp. revert l.
  induction Hp as [a | e | X op k Hop _ IH]; intros l Hr.
  - apply reaches_ret in Hr. destruct Hr as [-> _]. constructor.
  - apply reaches_throw in Hr. destruct Hr as [-> _]. constructor.
  - destruct l as [| e rest]; [constructor |]. simpl in Hr.
    destruct Hr as [r [-> Hr]]. constructor; [exact Hop | exact (IH r rest Hr)].
Qed.

(** One awaited operation: nothing seen yet, or settled with a value, or
    rejected, which throws. *)
Lemma reaches_await {X : Type} (op : Op X) l (q : Prog X) :
  reaches (await op) l q ->
  (l = [] /\ q = await op)
  \/ (exists x, l = [event op (Ok x)] /\ q = Ret x)
  \/ (exists e, l = [event op (Rejected e)] /\ q = Throw e).
Proof.
  unfold await. destruct l as [| e rest]; simpl; intros Hr.
  - left. split; [reflexivity | exact Hr].
  - right. destruct Hr as [r [-> Hr]]. destruct r as [x | ex].
    + apply reaches_ret in Hr. destruct Hr as [-> ->]. left. exists x. split; reflexivity.
    + apply reaches_throw in Hr. destruct Hr as [-> ->]. right. exists ex.
      split; reflexivity.
Qed.

(** Once the insert of a confirm call has been rejected by the unique
    index, the handler stands at its answer: the catch-all's 500. *)
Lemma post_confirm_after_unique_hit req l q :
  reaches (post_confirm req) l q ->
  existsb hit_unique_index l = true -> q = Ret server_error.
Proof.
  unfold post_confirm. intros Hr Hhit.
  apply reaches_try_catch in Hr.
  destruct Hr as [[q' [Hbody ->]] | [e [l1 [l2 [_ [_ Hh]]]]]].
  2: { apply reaches_ret in Hh. destruct Hh as [_ ->]. reflexivity. }
  enough (Hthrown : exists e, q' = Throw e) by (destruct Hthrown as [e ->]; reflexivity).
  destruct (negb (Js.present (session_id req)) || negb (Js.present (scheduled_at req))).
  { apply reaches_ret in Hbody. destruct Hbody as [-> _]. discriminate Hhit. }
  destruct (Date_parse (Js.text (scheduled_at req))).
  2: { apply reaches_ret in Hbody. destruct Hbody as [-> _]. discriminate Hhit. }
  apply reaches_bind in Hbody.
  destruct Hbody as [[q0 [Hup _]] | [uid [l1 [l2 [-> [Hup Hbody]]]]]].
  { rewrite (no_unique_hit _ (only_reaches _ _ _ _
      (only_weaken _ _ _ identity_other (upsertUser_only _)) Hup)) in Hhit.
    discriminate Hhit. }
  rewrite existsb_app, (no_unique_hit _ (only_reaches _ _ _ _
    (only_weaken _ _ _ identity_other (upsertUser_only _)) Hup)) in Hhit.
  cbn [orb] in Hhit.
  apply reaches_bind in Hbody.
  destruct Hbody as [[q0 [Hsess _]] | [sess [l3 [l4 [-> [Hsess Hbody]]]]]].
  { rewrite (no_unique_hit _ (only_reaches _ _ _ _
      (only_weaken _ _ _ identity_other (ensureSession_only _ _)) Hsess)) in Hhit.
    discriminate Hhit. }
  rewrite existsb_app, (no_unique_hit _ (only_reaches _ _ _ _
    (only_weaken _ _ _ identity_other (ensureSession_only _ _)) Hsess)) in Hhit.
  cbn [orb] in Hhit.
  destruct (refused (confirm req)).
  { apply reaches_ret in Hbody. destruct Hbody as [-> _]. discriminate Hhit. }
  apply reaches_bind in Hbody.
  destruct Hbody as [[q0 [Hsel _]] | [found [l5 [l6 [-> [Hsel Hbody]]]]]].
  { apply reaches_await in Hsel.
    destruct Hsel as [[-> _] | [[x [-> _]] | [e [-> _]]]]; discriminate Hhit. }
  apply reaches_await in Hsel.
  destruct Hsel as [[_ Habs] | [[x [-> _]] | [e [_ Habs]]]]; try discriminate Habs.
  cbn [app existsb hit_unique_index event orb] in Hhit.
  destruct (0 <? List.length found)%nat.
  { apply reaches_ret in Hbody. destruct Hbody as [-> _]. discriminate Hhit. }
  apply reaches_bind in Hbody.
  destruct Hbody as [[q0 [Hins ->]] | [ins [l7 [l8 [-> [Hins Hbody]]]]]].
  { apply reaches_await in Hins.
    destruct Hins as [[-> _] | [[rows [-> _]] | [e [_ ->]]]];
      [discriminate Hhit | discriminate Hhit |].
    exists e. reflexivity. }
  apply reaches_await in Hins.
  destruct Hins as [[_ Habs] | [[rows [-> _]] | [e [_ Habs]]]]; try discriminate Habs.
  cbn [app existsb hit_unique_index event orb] in Hhit.
  assert (Hlog : only other_than_booking
    (try_catch
       match ins with
       | [] => Throw TypeError
       | a0 :: _ =>
           logMessage uid (session_id req) "assistant"
             (Js.Str ("Confirmed your appointment for " ++ Js.text (scheduled_at req) ++ "."))
             (Js.Obj [("appointment_id", Js.Num (a_id a0)); ("status", Js.Str "confirmed")])
       end (fun _ : Exn => Ret tt);; Ret (confirmed ins))).
  { apply only_bind; [| intros; constructor].
    apply only_try_catch; [| intros; constructor].
    destruct ins; [constructor |]. apply only_await. exact I. }
  rewrite (no_unique_hit _ (only_reaches _ _ _ _ Hlog Hbody)) in Hhit. discriminate Hhit.
Qed.

End TraceFacts.

(** ** Threads under the scheduler *)

Section SchedulerFacts.

Context `{Platform}.

Lemma nth_error_replace_nth_same {A : Type} (i : nat) (x y : A) (l : list A) :
  nth_error l i = Some y -> nth_error (replace_nth i x l) i = Some x.
Proof.
  revert i. induction l as [| z l IH]; intros [| i]; simpl; try discriminate.
  - reflexivity.
  - apply IH.
Qed.

Lemma nth_error_replace_nth_other {A : Type} (i j : nat) (x : A) (l : list A) :
  i <> j -> nth_error (replace_nth i x l) j = nth_error l j.
Proof.
  revert i j. induction l as [| z l IH]; intros [| i] [| j] Hij; simpl;
    try reflexivity; try contradiction.
  apply IH. intros Heq. apply Hij. f_equal. exact Heq.
Qed.

Lemma spawn_tracked (ps : list (Prog Response)) (db : DB) :
  tracked ps (mkSystem db (spawn ps)).
Proof.
  intros j p0 t Hp Ht. simpl in Ht. unfold spawn in Ht.
  rewrite nth_error_map, Hp in Ht. simpl in Ht. inversion Ht; subst.
  intros l out Hc. exact Hc.
Qed.

Lemma step_tracked (ps : list (Prog Response)) (i : nat) (s : System) :
  tracked ps s -> tracked ps (step i s).
Proof.
  intros Htr. unfold step.
  destruct (nth_error (pool s) i) as [[c l] |] eqn:Hi; [| exact Htr].
  destruct c as [a | e | X op k]; try exact Htr.
  destruct (exec op (store s)) as [r db1] eqn:Hexec.
  intros j p0 t Hp Ht. simpl in Ht.
  destruct (Nat.eq_dec i j) as [<- | Hij].
  - rewrite (nth_error_replace_nth_same _ _ _ _ Hi) in Ht. inversion Ht; subst.
    intros l' out Hc. simpl in *. rewrite <- app_assoc. simpl.
    apply (Htr i p0 _ Hp Hi). simpl. exists r, l'. split; [reflexivity | exact Hc].
  - rewrite (nth_error_replace_nth_other _ _ _ _ Hij) in Ht.
    exact (Htr j p0 t Hp Ht).
Qed.

Lemma schedule_tracked (ps : list (Prog Response)) (order : list nat) (s : System) :
  tracked ps s -> tracked ps (schedule order s).
Proof.
  revert s. induction order as [| i order IH]; intros s Hs; simpl; [exact Hs |].
  apply IH. apply step_tracked. exact Hs.
Qed.

Lemma spawn_followed (ps : list (Prog Response)) (db : DB) :
  followed ps (mkSystem db (spawn ps)).
Proof.
  intros j p0 t Hp Ht. simpl in Ht. unfold spawn in Ht.
  rewrite nth_error_map, Hp in Ht. simpl in Ht. inversion Ht; subst.
  reflexivity.
Qed.

Lemma step_followed (ps : list (Prog Response)) (i : nat) (s : System) :
  followed ps s -> followed ps (step i s).
Proof.
  intros Hf. unfold step.
  destruct (nth_error (pool s) i) as [[c l] |] eqn:Hi; [| exact Hf].
  destruct c as [a | e | X op k]; try exact Hf.
  destruct (exec op (store s)) as [r db1] eqn:Hexec.
  intros j p0 t Hp Ht. cbn [pool] in Ht.
  destruct (Nat.eq_dec i j) as [<- | Hij].
  - rewrite (nth_error_replace_nth_same _ _ _ _ Hi) in Ht. inversion Ht; subst.
    cbn [code seen]. apply reaches_snoc. exact (Hf i p0 _ Hp Hi).
  - rewrite (nth_error_replace_nth_other _ _ _ _ Hij) in Ht.
    exact (Hf j p0 t Hp Ht).
Qed.

Lemma schedule_followed (ps : list (Prog Response)) (order : list nat) (s : System) :
  followed ps s -> followed ps (schedule order s).
Proof.
  revert s. induction order as [| i order IH]; intros s Hs; simpl; [exact Hs |].
  apply IH. apply step_followed. exact Hs.
Qed.

(** What a finished thread saw is a complete execution of its handler. *)
Lemma finished_completes (ps : list (Prog Response)) (order : list nat) (db : DB)
    (i : nat) (p0 : Prog Response) (resp : Response) :
  nth_error ps i = Some p0 ->
  response_of (schedule order (mkSystem db (spawn ps))) i = Some resp ->
  completes p0 (seen_by (schedule order (mkSystem db (spawn ps))) i) (Done resp).
Proof.
  intros Hp Hresp.
  pose proof (schedule_tracked ps order _ (spawn_tracked ps db)) as Htr.
  unfold response_of in Hresp. unfold seen_by.
  destruct (nth_error (pool (schedule order (mkSystem db (spawn ps)))) i)
    as [[c l] |] eqn:Hi; [| discriminate].
  destruct c as [a | e | X op k]; try discriminate. inversion Hresp; subst.
  pose proof (Htr i p0 _ Hp Hi [] (Done resp)) as Hc. simpl in Hc.
  rewrite app_nil_r in Hc. apply Hc. split; reflexivity.
Qed.

Lemma insert_appointment_rejected (user_id : Z) (at_ : string) (db : DB) (e : Exn) :
  fst (insert_appointment user_id at_ db) = Rejected e ->
  appointments (snd (insert_appointment user_id at_ db)) = appointments db.
Proof.
  unfold insert_appointment. destruct (pg_timestamp at_) as [t |]; [| reflexivity].
  destruct (existsb _ (appointments db)); [reflexivity |].
  destruct (booked t db); [| reflexivity].
  destruct (negb (user_exists user_id db)); [reflexivity | discriminate].
Qed.

(** Appointment rows are only ever appended. *)
Lemma exec_appends {X : Type} (op : Op X) (db : DB) :
  exists l, appointments (snd (exec op db)) = (appointments db ++ l)%list.
Proof.
  assert (Hsame : forall d, appointments d = appointments db ->
            exists l, appointments d = (appointments db ++ l)%list).
  { intros d ->. exists []. rewrite app_nil_r. reflexivity. }
  destruct op as [email name | token | user_id token | user_id token role content meta
                 | at_ | user_id at_ | url body];
    simpl; try (apply Hsame; reflexivity).
  - unfold upsert_user. destruct (find _ (users db)); simpl; [apply Hsame; reflexivity |].
    destruct (user_exists (users_seq db) db); apply Hsame; reflexivity.
  - unfold insert_session. destruct (existsb _ (chat_sessions db));
      [apply Hsame; reflexivity |].
    destruct (negb (user_exists user_id db)); apply Hsame; reflexivity.
  - unfold insert_message. destruct (jsonb_column meta); [| apply Hsame; reflexivity].
    destruct token; [| apply Hsame; reflexivity].
    destruct (is_null content); [apply Hsame; reflexivity |].
    destruct (existsb _ (chat_messages db)); [apply Hsame; reflexivity |].
    destruct (negb (user_exists user_id db)); apply Hsame; reflexivity.
  - unfold insert_appointment.
    destruct (pg_timestamp at_) as [t |]; [| apply Hsame; reflexivity].
    destruct (existsb _ (appointments db)); [apply Hsame; reflexivity |].
    destruct (booked t db); [| apply Hsame; reflexivity].
    destruct (negb (user_exists user_id db)); [apply Hsame; reflexivity |].
    simpl. eexists. reflexivity.
Qed.

Lemma step_appends (i : nat) (s : System) :
  exists l, appointments (store (step i s)) = (appointments (store s) ++ l)%list.
Proof.
  assert (Hsame : exists l, appointments (store s) = (appointments (store s) ++ l)%list)
    by (exists []; rewrite app_nil_r; reflexivity).
  unfold step. destruct (nth_error (pool s) i) as [[c l] |]; [| exact Hsame].
  destruct c as [a | e | X op k]; try exact Hsame.
  pose proof (exec_appends op (store s)) as Happ.
  destruct (exec op (store s)) as [r db1]. exact Happ.
Qed.

Lemma schedule_appends (order : list nat) (s : System) :
  exists l, appointments (store (schedule order s)) = (appointments (store s) ++ l)%list.
Proof.
  revert s. induction order as [| i order IH]; intros s; simpl.
  - exists []. rewrite app_nil_r. reflexivity.
  - destruct (IH (step i s)) as [l2 Hl2]. destruct (step_appends i s) as [l1 Hl1].
    exists (l1 ++ l2)%list. fold (schedule order (step i s)).
    rewrite Hl2, Hl1, app_assoc. reflexivity.
Qed.

End SchedulerFacts.

(** ** The helpers, run alone on a consistent store *)

Section HelperFacts.

Context `{Platform}.

Lemma run_upsertUser (sub : string) (db : DB) :
  run (upsertUser sub) db =
  match upsert_user (email_of sub) "Demo User" db with
  | (Ok (id :: _), db1) => (Done id, db1)
  | (Ok [], db1) => (Uncaught TypeError, db1)
  | (Rejected e, db1) => (Uncaught e, db1)
  end.
Proof.
  unfold upsertUser. rewrite run_bind, run_await. cbn [exec]. fold (email_of sub).
  destruct (upsert_user (email_of sub) "Demo User" db) as [[[| id rest] | e] db1];
    reflexivity.
Qed.

Lemma user_exists_snoc (id : Z) (u : User) (l : list User) :
  u_id u = id -> existsb (fun v => u_id v =? id) (l ++ [u]) = true.
Proof.
  intros Hid. rewrite existsb_app. simpl. rewrite Hid, Z.eqb_refl.
  rewrite orb_true_r. reflexivity.
Qed.

Lemma rename_keeps_email (email name : string) (u : User) :
  u_email (rename email name u) = u_email u.
Proof. unfold rename. destruct (u_email u =? email)%string; reflexivity. Qed.

Lemma rename_keeps_id (email name : string) (u : User) :
  u_id (rename email name u) = u_id u.
Proof. unfold rename. destruct (u_email u =? email)%string; reflexivity. Qed.

Lemma renamed_with_email (email other name : string) (l : list User) :
  map u_id (filter (fun u => (u_email u =? email)%string) (map (rename other name) l))
  = map u_id (filter (fun u => (u_email u =? email)%string) l).
Proof.
  induction l as [| v l IH]; [reflexivity |]. cbn [map filter].
  rewrite rename_keeps_email.
  destruct (u_email v =? email)%string; cbn [map]; rewrite IH;
    [rewrite rename_keeps_id |]; reflexivity.
Qed.

Lemma no_email_no_row (email : string) (l : list User) :
  ~ In email (map u_email l) -> filter (fun u => (u_email u =? email)%string) l = [].
Proof.
  induction l as [| v l IH]; [reflexivity |]. simpl. intros Hno.
  destruct (u_email v =? email)%string eqn:Hv.
  - exfalso. apply Hno. left. apply String.eqb_eq. exact Hv.
  - apply IH. intros Hin. apply Hno. right. exact Hin.
Qed.

Lemma unique_email_one_row (email : string) (u : User) (l : list User) :
  NoDup (map u_email l) ->
  find (fun u => (u_email u =? email)%string) l = Some u ->
  filter (fun u => (u_email u =? email)%string) l = [u].
Proof.
  induction l as [| v l IH]; [discriminate |]. simpl. intros Hnd Hfind.
  inversion Hnd as [| ? ? Hv Hl]; subst.
  destruct (u_email v =? email)%string eqn:Hv_email.
  - inversion Hfind; subst. f_equal. apply no_email_no_row.
    apply String.eqb_eq in Hv_email. rewrite <- Hv_email. exact Hv.
  - apply IH; assumption.
Qed.

(** On a consistent store the upsert answers with one id, the id of the one
    row that carries the email afterwards. *)
Lemma upsert_user_ok (email name : string) (db : DB) :
  consistent db ->
  exists id,
    fst (upsert_user email name db) = Ok [id] /\
    user_exists id (snd (upsert_user email name db)) = true /\
    map u_id (users_with_email email (snd (upsert_user email name db))) = [id].
Proof.
  intros Hdb. unfold upsert_user, users_with_email.
  destruct (find _ (users db)) as [u |] eqn:Hfind; simpl.
  - exists (u_id u). split; [reflexivity |]. split.
    + unfold user_exists. simpl. rewrite rename_exists.
      apply find_some in Hfind. destruct Hfind as [Hin _].
      apply existsb_exists. exists u. split; [exact Hin | apply Z.eqb_refl].
    + rewrite renamed_with_email.
      rewrite (unique_email_one_row email u _ (emails_unique db Hdb) Hfind). reflexivity.
  - unfold user_exists. rewrite (fresh_absent u_id _ _ (users_fresh db Hdb)). simpl.
    exists (users_seq db). split; [reflexivity |]. split.
    + apply user_exists_snoc. reflexivity.
    + rewrite filter_app. simpl. rewrite String.eqb_refl.
      rewrite (no_email_no_row email (users db) (find_email_none _ _ Hfind)). reflexivity.
Qed.

Lemma upsertUser_ok (sub : string) (db : DB) :
  consistent db ->
  exists id,
    run (upsertUser sub) db = (Done id, snd (upsert_user (email_of sub) "Demo User" db)) /\
    user_exists id (snd (upsert_user (email_of sub) "Demo User" db)) = true /\
    map u_id (users_with_email (email_of sub)
                (snd (upsert_user (email_of sub) "Demo User" db))) = [id].
Proof.
  intros Hdb. destruct (upsert_user_ok (email_of sub) "Demo User" db Hdb)
    as [id [Hfst [Hex Hone]]].
  exists id. split; [| split; assumption]. rewrite run_upsertUser.
  destruct (upsert_user (email_of sub) "Demo User" db) as [r db1]. simpl in *.
  rewrite Hfst. reflexivity.
Qed.

Lemma insert_session_ok (user_id : Z) (token : string) (db : DB) :
  consistent db -> user_exists user_id db = true ->
  insert_session user_id token db =
  (Ok [chat_sessions_seq db],
   set_sessions (chat_sessions db ++ [mkSession (chat_sessions_seq db) user_id token])
                (bump_sessions db)).
Proof.
  intros Hdb Hu. unfold insert_session.
  rewrite (fresh_absent s_id _ _ (sessions_fresh db Hdb)), Hu. reflexivity.
Qed.

Lemma run_ensureSession (user_id : Z) (token : option string) (db : DB) :
  consistent db -> user_exists user_id db = true ->
  run (ensureSession user_id token) db =
  if negb (Js.present token) then (Done None, db)
  else match select_session (Js.text token) db with
       | id :: _ => (Done (Some id), db)
       | [] => (Done (Some (chat_sessions_seq db)),
                set_sessions (chat_sessions db ++
                                [mkSession (chat_sessions_seq db) user_id (Js.text token)])
                             (bump_sessions db))
       end.
Proof.
  intros Hdb Hu. unfold ensureSession.
  destruct (negb (Js.present token)); [reflexivity |].
  rewrite run_bind, run_await. cbn [exec].
  destruct (select_session (Js.text token) db) as [| id rest]; [| reflexivity].
  cbn [List.length Nat.ltb Nat.leb]. rewrite run_bind, run_await. cbn [exec].
  rewrite (insert_session_ok _ _ _ Hdb Hu). reflexivity.
Qed.

Lemma ensureSession_users (user_id : Z) (token : option string) (db : DB) :
  users (snd (run (ensureSession user_id token) db)) = users db /\
  users_seq (snd (run (ensureSession user_id token) db)) = users_seq db.
Proof.
  unfold ensureSession. destruct (negb (Js.present token)); [split; reflexivity |].
  rewrite run_bind, run_await. cbn [exec].
  destruct (0 <? List.length (select_session (Js.text token) db))%nat.
  - destruct (select_session (Js.text token) db); split; reflexivity.
  - rewrite run_bind, run_await. cbn [exec]. unfold insert_session.
    destruct (existsb _ (chat_sessions db)); [split; reflexivity |].
    destruct (negb (user_exists user_id db)); split; reflexivity.
Qed.

Lemma insert_message_ok (user_id : Z) (token role : string) (content meta stored : Js.value)
    (db : DB) :
  consistent db -> user_exists user_id db = true -> is_null content = false ->
  jsonb_column meta = Some stored ->
  insert_message user_id (Some token) role content meta db =
  (Ok tt,
   set_messages (chat_messages db ++
                   [mkMessage (chat_messages_seq db) user_id token role
                      (text_column content) stored])
                (bump_messages db)).
Proof.
  intros Hdb Hu Hc Hmeta. unfold insert_message.
  rewrite Hmeta, Hc, (fresh_absent m_id _ _ (messages_fresh db Hdb)), Hu. reflexivity.
Qed.

End HelperFacts.

(** ** The handlers, run alone on a consistent store *)

Section HandlerFacts.

Context `{Platform}.

Lemma ensureSession_ok (user_id : Z) (token : option string) (db : DB) :
  consistent db -> user_exists user_id db = true ->
  exists sess,
    run (ensureSession user_id token) db
    = (Done sess, snd (run (ensureSession user_id token) db)).
Proof.
  intros Hdb Hu. rewrite (run_ensureSession _ _ _ Hdb Hu).
  destruct (negb (Js.present token)); [exists None; reflexivity |].
  destruct (select_session (Js.text token) db) as [| id rest];
    eexists; reflexivity.
Qed.

Lemma ensureSession_keeps_user (user_id id : Z) (token : option string) (db : DB) :
  user_exists id db = true ->
  user_exists id (snd (run (ensureSession user_id token) db)) = true.
Proof.
  unfold user_exists. destruct (ensureSession_users user_id token db) as [-> _]. auto.
Qed.

Lemma booked_frame (t : Z) (db db1 : DB) :
  appointments db1 = appointments db -> booked t db1 = booked t db.
Proof. unfold booked. intros ->. reflexivity. Qed.

Lemma missing_fields_no_await (req : Request) :
  negb (Js.present (session_id req)) || negb (Js.present (scheduled_at req)) = true ->
  post_confirm req = Ret missing_fields.
Proof. unfold post_confirm. intros ->. reflexivity. Qed.

Lemma not_iso8601_no_await (req : Request) :
  negb (Js.present (session_id req)) || negb (Js.present (scheduled_at req)) = false ->
  Date_parse (Js.text (scheduled_at req)) = None ->
  post_confirm req = Ret not_iso8601.
Proof. unfold post_confirm. intros -> ->. reflexivity. Qed.

(** The user upsert followed by the session ensure: afterwards one user row
    carries the identity of the subject, and a session row carries the token. *)
Lemma identity_step (req : Request) (db : DB) :
  consistent db ->
  exists uid sess db1 db2,
    run (upsertUser (subject req)) db = (Done uid, db1) /\
    run (ensureSession uid (session_id req)) db1 = (Done sess, db2) /\
    map u_id (users_with_email (email_of (subject req)) db2) = [uid] /\
    (Js.present (session_id req) = true ->
     select_session (Js.text (session_id req)) db2 <> []).
Proof.
  intros Hdb.
  destruct (upsertUser_ok (subject req) db Hdb) as [uid [Hup [Hex Hone]]].
  set (db1 := snd (upsert_user (email_of (subject req)) "Demo User" db)) in *.
  assert (Hdb1 : consistent db1) by (apply upsert_user_consistent; exact Hdb).
  destruct (ensureSession_ok uid (session_id req) db1 Hdb1 Hex) as [sess Hsess].
  exists uid, sess, db1, (snd (run (ensureSession uid (session_id req)) db1)).
  split; [exact Hup |]. split; [exact Hsess |]. split.
  - unfold users_with_email in *.
    destruct (ensureSession_users uid (session_id req) db1) as [-> _]. exact Hone.
  - intros Hsid. rewrite (run_ensureSession _ _ _ Hdb1 Hex), Hsid. cbn [negb].
    destruct (select_session (Js.text (session_id req)) db1) as [| id rest] eqn:Hsel;
      cbn [snd].
    + unfold select_session. simpl. rewrite filter_app, map_app. simpl.
      rewrite String.eqb_refl. simpl. intros Habs.
      apply app_eq_nil in Habs. destruct Habs as [_ Habs]. discriminate.
    + rewrite Hsel. discriminate.
Qed.

(** The confirm handler on a request that passes both validations. *)
Lemma post_confirm_run (req : Request) (db : DB) :
  consistent db ->
  negb (Js.present (session_id req)) || negb (Js.present (scheduled_at req)) = false ->
  Date_parse (Js.text (scheduled_at req)) <> None ->
  exists uid sess db1 db2,
    run (upsertUser (subject req)) db = (Done uid, db1) /\
    run (ensureSession uid (session_id req)) db1 = (Done sess, db2) /\
    consistent db2 /\ user_exists uid db2 = true /\
    run (post_confirm req) db =
    if refused (confirm req) then (Done declined, db2)
    else match pg_timestamp (Js.text (scheduled_at req)) with
         | None => (Done server_error, db2)
         | Some t =>
             match booked t db2 with
             | _ :: _ => (Done conflict, db2)
             | [] =>
                 let row := mkAppointment (appointments_seq db2) uid t "confirmed"
                              (Some "Booked via chatbot") in
                 let db3 := set_appointments (appointments db2 ++ [row])
                              (bump_appointments db2) in
                 (Done (confirmed [row]),
                  set_messages
                    (chat_messages db3 ++
                       [mkMessage (chat_messages_seq db3) uid (Js.text (session_id req))
                          "assistant"
                          (Js.Str ("Confirmed your appointment for "
                                   ++ Js.text (scheduled_at req) ++ "."))
                          (Js.Obj [ ("appointment_id", Js.Num (appointments_seq db2));
                                    ("status", Js.Str "confirmed") ])])
                    (bump_messages db3))
             end
         end.
Proof.
  intros Hdb Hguard Hparse.
  destruct (upsertUser_ok (subject req) db Hdb) as [uid [Hup [Hex _]]].
  set (db1 := snd (upsert_user (email_of (subject req)) "Demo User" db)) in *.
  assert (Hdb1 : consistent db1) by (apply upsert_user_consistent; exact Hdb).
  destruct (ensureSession_ok uid (session_id req) db1 Hdb1 Hex) as [sess Hsess].
  set (db2 := snd (run (ensureSession uid (session_id req)) db1)) in *.
  assert (Hdb2 : consistent db2) by (apply run_consistent; exact Hdb1).
  assert (Hex2 : user_exists uid db2 = true)
    by (apply ensureSession_keeps_user; exact Hex).
  exists uid, sess, db1, db2. repeat (split; [assumption |]).
  unfold post_confirm. rewrite Hguard.
  destruct (Date_parse (Js.text (scheduled_at req))) as [ms |]; [| contradiction].
  rewrite run_try_catch, run_bind, Hup, run_bind, Hsess.
  destruct (refused (confirm req)); [reflexivity |].
  rewrite run_bind, run_await. cbn [exec]. unfold select_confirmed.
  destruct (pg_timestamp (Js.text (scheduled_at req))) as [t |] eqn:Ht; [| reflexivity].
  destruct (booked t db2) as [| b rest] eqn:Hbooked; [| reflexivity].
  cbn [map firstn List.length Nat.ltb Nat.leb].
  rewrite run_bind, run_await. cbn [exec]. unfold insert_appointment.
  rewrite Ht, (fresh_absent a_id _ _ (appointments_fresh db2 Hdb2)), Hbooked, Hex2.
  cbn [negb]. cbv zeta.
  set (row := mkAppointment (appointments_seq db2) uid t "confirmed"
                (Some "Booked via chatbot")).
  set (db3 := set_appointments (appointments db2 ++ [row]) (bump_appointments db2)).
  assert (Hdb3 : consistent db3).
  { pose proof (insert_appointment_consistent uid (Js.text (scheduled_at req)) db2 Hdb2)
      as Hc. unfold insert_appointment in Hc.
    rewrite Ht, (fresh_absent a_id _ _ (appointments_fresh db2 Hdb2)), Hbooked, Hex2
      in Hc. exact Hc. }
  rewrite run_bind, run_try_catch. unfold logMessage. rewrite run_await. cbn [exec].
  destruct (session_id req) as [sid |] eqn:Hsid; [| discriminate].
  erewrite insert_message_ok;
    [reflexivity | exact Hdb3 | exact Hex2 | reflexivity | reflexivity].
Qed.

Lemma identity_frame (req : Request) (db : DB) (uid : Z) (sess : option Z) (db1 db2 : DB) :
  run (upsertUser (subject req)) db = (Done uid, db1) ->
  run (ensureSession uid (session_id req)) db1 = (Done sess, db2) ->
  same_bookings_and_transcript db db2.
Proof.
  intros Hup Hsess.
  pose proof (identity_only_frame _ db (upsertUser_only (subject req))) as H1.
  pose proof (identity_only_frame _ db1 (ensureSession_only uid (session_id req))) as H2.
  rewrite Hup in H1. rewrite Hsess in H2. simpl in H1, H2.
  unfold same_bookings_and_transcript in *.
  destruct H1 as [<- [<- [<- <-]]]. exact H2.
Qed.

Lemma assistant_content_not_null (data : Js.value) :
  is_null (assistant_content data) = false.
Proof.
  unfold assistant_content, Js.or.
  destruct (Js.get data "reply") as [| | [|] | n | s | items | props] eqn:Hreply;
    cbn [Js.truthy]; try reflexivity;
    try (destruct (negb _); [reflexivity |]);
    destruct (Js.get (Js.get data "data") "reply") as [| | [|] | n' | s' | items' | props'];
    cbn [Js.truthy]; try reflexivity;
    destruct (negb _); reflexivity.
Qed.

Lemma assistant_meta_stored (data : Js.value) :
  jsonb_column (assistant_meta data) = Some (Js.through_json (assistant_meta data)).
Proof.
  unfold assistant_meta. destruct (Js.truthy _); reflexivity.
Qed.

(** The message handler on a request with a message text and a session token. *)
Lemma post_message_run (req : Request) (db : DB) (tok : string) :
  consistent db ->
  Js.present (message req) = true ->
  session_id req = Some tok ->
  exists uid sess db1 db2,
    run (upsertUser (subject req)) db = (Done uid, db1) /\
    run (ensureSession uid (session_id req)) db1 = (Done sess, db2) /\
    let inbound := mkMessage (chat_messages_seq db2) uid tok "user"
                     (Js.Str (Js.text (message req))) (Js.Obj []) in
    let db3 := set_messages (chat_messages db2 ++ [inbound]) (bump_messages db2) in
    run (post_message req) db =
    match interpreter (PY_SERVICE_URL ++ "/simulate")
            (Js.Obj [ ("message", Js.Str (Js.text (message req)));
                      ("user_id", Js.Str (subject req));
                      ("session_id", Js.of_field (session_id req)) ]) with
    | Ok (Some data) =>
        (Done (Respond 200 (Js.Obj [("ok", Js.Bool true); ("data", data)])),
         set_messages
           (chat_messages db3 ++
              [mkMessage (chat_messages_seq db3) uid tok "assistant"
                 (text_column (assistant_content data))
                 (Js.through_json (assistant_meta data))])
           (bump_messages db3))
    | _ => (Done python_unreachable, db3)
    end.
Proof.
  intros Hdb Hmsg Htok.
  destruct (upsertUser_ok (subject req) db Hdb) as [uid [Hup [Hex _]]].
  set (db1 := snd (upsert_user (email_of (subject req)) "Demo User" db)) in *.
  assert (Hdb1 : consistent db1) by (apply upsert_user_consistent; exact Hdb).
  destruct (ensureSession_ok uid (session_id req) db1 Hdb1 Hex) as [sess Hsess].
  set (db2 := snd (run (ensureSession uid (session_id req)) db1)) in *.
  assert (Hdb2 : consistent db2) by (apply run_consistent; exact Hdb1).
  assert (Hex2 : user_exists uid db2 = true)
    by (apply ensureSession_keeps_user; exact Hex).
  exists uid, sess, db1, db2. repeat (split; [assumption |]). cbv zeta.
  set (inbound := mkMessage (chat_messages_seq db2) uid tok "user"
                    (Js.Str (Js.text (message req))) (Js.Obj [])).
  set (db3 := set_messages (chat_messages db2 ++ [inbound]) (bump_messages db2)).
  assert (Hins : insert_message uid (Some tok) "user" (Js.Str (Js.text (message req)))
                   (Js.Obj []) db2 = (Ok tt, db3))
    by (apply insert_message_ok; [exact Hdb2 | exact Hex2 | reflexivity | reflexivity]).
  assert (Hdb3 : consistent db3).
  { pose proof (insert_message_consistent uid (Some tok) "user"
                  (Js.Str (Js.text (message req))) (Js.Obj []) db2 Hdb2) as Hc.
    rewrite Hins in Hc. exact Hc. }
  unfold post_message. rewrite Hmsg. cbn [negb].
  rewrite run_try_catch, run_bind, Hup, run_bind, Hsess, run_bind.
  unfold logMessage at 1. rewrite run_await. cbn [exec]. rewrite Htok, Hins.
  rewrite run_bind, run_await. cbn [exec]. rewrite <- Htok.
  destruct (interpreter _ _) as [[data |] | e]; try reflexivity.
  cbn [json]. rewrite run_bind. cbn [run]. rewrite run_bind.
  unfold logMessage. rewrite run_await. cbn [exec]. rewrite Htok.
  erewrite insert_message_ok;
    [reflexivity | exact Hdb3 | exact Hex2 | apply assistant_content_not_null
     | apply assistant_meta_stored].
Qed.

(** Without a session_id the inbound insert violates NOT NULL on
    [session_token]: the catch-all answers 500 and no message row is kept. *)
Lemma post_message_without_session (req : Request) (db : DB) :
  consistent db ->
  Js.present (message req) = true ->
  session_id req = None ->
  fst (run (post_message req) db) = Done python_unreachable /\
  chat_messages (snd (run (post_message req) db)) = chat_messages db.
Proof.
  intros Hdb Hmsg Hsid.
  destruct (upsertUser_ok (subject req) db Hdb) as [uid [Hup _]].
  pose proof (identity_only_frame _ db (upsertUser_only (subject req))) as Hframe.
  rewrite Hup in Hframe. destruct Hframe as [_ [_ [Hrows _]]]. simpl in Hrows.
  unfold post_message. rewrite Hmsg. cbn [negb].
  rewrite run_try_catch, run_bind, Hup, run_bind, Hsid.
  unfold ensureSession. cbn [Js.present negb run].
  rewrite run_bind. unfold logMessage at 1. rewrite run_await. cbn [exec insert_message].
  split; [reflexivity | exact Hrows].
Qed.

End HandlerFacts.

(** ** The claims *)

Section Validation.

Context `{Platform}.

(** C10: a confirm-or-decline call that lacks session_id or scheduled_at is
    answered with 400 bad_request by a handler that awaits nothing, so that
    no row is read or written, whatever the confirm flag holds. *)
Theorem missing_fields_rejected_first (req : Request) :
  Js.present (session_id req) = false \/ Js.present (scheduled_at req) = false ->
  post_confirm req = Ret missing_fields /\
  only (fun _ _ => False) (post_confirm req) /\
  forall db, run (post_confirm req) db = (Done missing_fields, db).
Proof.
  intros Hmissing.
  assert (Hguard : negb (Js.present (session_id req))
                   || negb (Js.present (scheduled_at req)) = true).
  { destruct Hmissing as [-> | ->]; [reflexivity | apply orb_true_r]. }
  rewrite (missing_fields_no_await req Hguard).
  split; [reflexivity |]. split; [constructor | reflexivity].
Qed.


(** C6: a message call whose text is empty or missing is answered with the
    400 'missing message' error by a handler that awaits nothing: no user,
    session or message row is created or updated. *)
Theorem missing_message_rejected (req : Request) :
  Js.present (message req) = false ->
  post_message req = Ret missing_message /\
  forall db, run (post_message req) db = (Done missing_message, db).
Proof.
  intros Hmissing. unfold post_message. rewrite Hmissing. split; reflexivity.
Qed.

End Validation.

Lemma missing_fields_rejected_first_witness :
  @post_confirm offline no_session = Ret missing_fields /\
  only (fun _ _ => False) (@post_confirm offline no_session) /\
  forall db, @run offline _ (@post_confirm offline no_session) db = (Done missing_fields, db).
Proof.
  apply (@missing_fields_rejected_first offline no_session). left. reflexivity.
Defined.


Lemma missing_message_rejected_witness :
  @post_message offline no_message = Ret missing_message /\
  forall db, @run offline _ (@post_message offline no_message) db = (Done missing_message, db).
Proof.
  apply (@missing_message_rejected offline no_message). reflexivity.
Defined.

Section Booking.

Context `{Platform}.

Lemma decline_only_identity (req : Request) :
  refused (confirm req) = true -> only identity_op (post_confirm req).
Proof.
  intros Hrefused. unfold post_confirm. apply only_try_catch; [| intros; constructor].
  destruct (negb (Js.present (session_id req)) || negb (Js.present (scheduled_at req)));
    [constructor |].
  destruct (Date_parse (Js.text (scheduled_at req))); [| constructor].
  apply only_bind; [apply upsertUser_only |]. intros uid.
  apply only_bind; [apply ensureSession_only |]. intros _.
  rewrite Hrefused. constructor.
Qed.

Lemma booked_snoc (t : Z) (db : DB) (a : Appointment) (l : list Appointment) :
  appointments db = (l ++ [a])%list -> a_scheduled_at a = t -> is_confirmed a = true ->
  booked t db <> [].
Proof.
  unfold booked. intros -> Ht Hc. rewrite filter_app. simpl.
  rewrite Ht, Z.eqb_refl, Hc. simpl. intros Habs.
  apply app_eq_nil in Habs. destruct Habs as [_ Habs]. discriminate.
Qed.

Lemma booked_later (t : Z) (db db1 : DB) (l : list Appointment) :
  appointments db1 = (appointments db ++ l)%list -> booked t db <> [] -> booked t db1 <> [].
Proof.
  unfold booked. intros -> Hsome Habs. rewrite filter_app in Habs.
  apply app_eq_nil in Habs. destruct Habs as [Habs _]. contradiction.
Qed.

(** C1, amended: a confirm call whose pre-check found no confirmed
    appointment and whose insert is then rejected by the unique index is
    answered, under every interleaving with any other handlers and as soon
    as the rejection has reached it, with the generic 500 server_error of
    the handler's catch-all, which is not 409 conflict; and the rejected
    insert leaves the appointment rows as they were. *)
Theorem lost_race_answers_server_error (ps : list (Prog Response)) (order : list nat)
    (db : DB) (i : nat) (req : Request) :
  nth_error ps i = Some (post_confirm req) ->
  lost_race (seen_by (schedule order (mkSystem db (spawn ps))) i) = true ->
  response_of (schedule order (mkSystem db (spawn ps))) i = Some server_error /\
  response_of (schedule order (mkSystem db (spawn ps))) i <> Some conflict /\
  forall uid at_ d e,
    fst (insert_appointment uid at_ d) = Rejected e ->
    appointments (snd (insert_appointment uid at_ d)) = appointments d.
Proof.
  intros Hp Hrace.
  pose proof (schedule_followed ps order _ (spawn_followed ps db)) as Hf.
  unfold lost_race in Hrace. apply andb_prop in Hrace. destruct Hrace as [_ Hhit].
  assert (Hresp : response_of (schedule order (mkSystem db (spawn ps))) i
                  = Some server_error).
  { unfold response_of. unfold seen_by in Hhit.
    destruct (nth_error (pool (schedule order (mkSystem db (spawn ps)))) i)
      as [t |] eqn:Hi; [| discriminate Hhit].
    pose proof (post_confirm_after_unique_hit req _ _ (Hf i _ t Hp Hi) Hhit) as Hq.
    destruct t as [c l]. cbn [code] in Hq. rewrite Hq. reflexivity. }
  split; [exact Hresp |]. split; [rewrite Hresp; discriminate |].
  intros uid at_ d e. apply insert_appointment_rejected.
Qed.

(** C2: along every schedule of any handlers, from a store that satisfies
    its constraints, no two confirmed appointments share a scheduled
    timestamp; and once a confirm call has succeeded for a slot, a confirm
    call of any user for the same slot, at once or after any further
    activity on the store, is answered with 409 conflict and leaves the
    appointment rows, which still begin with the rows the first call left,
    as they were. *)
Theorem one_confirmed_appointment_per_slot (s : System) (order : list nat)
    (db dbA : DB) (reqA reqB : Request) (rows : list Appointment)
    (others : list Thread) (between : list nat) :
  consistent (store s) ->
  consistent db ->
  run (post_confirm reqA) db = (Done (confirmed rows), dbA) ->
  Js.present (session_id reqB) = true ->
  scheduled_at reqB = scheduled_at reqA ->
  confirm reqB = Some true ->
  single_booking (store (schedule order s)) /\
  exists dbB more,
    run (post_confirm reqB) (store (schedule between (mkSystem dbA others)))
    = (Done conflict, dbB) /\
    appointments dbB = appointments (store (schedule between (mkSystem dbA others))) /\
    appointments dbB = (appointments dbA ++ more)%list /\
    single_booking dbB.
Proof.
  intros Hs Hdb HA HsidB Hat HconfB.
  split; [apply one_per_slot, schedule_consistent; exact Hs |].
  assert (HdbA : consistent dbA).
  { pose proof (run_consistent (post_confirm reqA) db Hdb) as Hc.
    rewrite HA in Hc. exact Hc. }
  destruct (negb (Js.present (session_id reqA)) || negb (Js.present (scheduled_at reqA)))
    eqn:HguardA.
  { rewrite (missing_fields_no_await reqA HguardA) in HA. simpl in HA. discriminate. }
  destruct (Date_parse (Js.text (scheduled_at reqA))) as [ms |] eqn:HparseA.
  2: { rewrite (not_iso8601_no_await reqA HguardA HparseA) in HA. simpl in HA.
       discriminate. }
  assert (HnanA : Date_parse (Js.text (scheduled_at reqA)) <> None)
    by (rewrite HparseA; discriminate).
  destruct (post_confirm_run reqA db Hdb HguardA HnanA)
    as [uid [sess [db1 [db2 [_ [_ [_ [_ HrunA]]]]]]]].
  rewrite HrunA in HA. clear HrunA.
  destruct (refused (confirm reqA)); [discriminate |].
  destruct (pg_timestamp (Js.text (scheduled_at reqA))) as [t |] eqn:Ht; [| discriminate].
  destruct (booked t db2) as [| b rest]; [| discriminate].
  cbv zeta in HA. injection HA as _ HdbA_eq.
  assert (HbookedA : booked t dbA <> []).
  { eapply booked_snoc; [rewrite <- HdbA_eq; reflexivity | reflexivity | reflexivity]. }
  set (later := store (schedule between (mkSystem dbA others))).
  assert (Hlater : consistent later) by (apply schedule_consistent; exact HdbA).
  destruct (schedule_appends between (mkSystem dbA others)) as [more Hmore].
  fold later in Hmore. simpl in Hmore.
  pose proof (booked_later t dbA later more Hmore HbookedA) as Hbooked.
  apply orb_false_elim in HguardA. destruct HguardA as [_ HatA].
  assert (HguardB : negb (Js.present (session_id reqB))
                    || negb (Js.present (scheduled_at reqB)) = false)
    by (rewrite HsidB, Hat, HatA; reflexivity).
  assert (HnanB : Date_parse (Js.text (scheduled_at reqB)) <> None)
    by (rewrite Hat; exact HnanA).
  destruct (post_confirm_run reqB later Hlater HguardB HnanB)
    as [uidB [sessB [dbB1 [dbB2 [HupB [HsessB [HdbB2 [_ HrunB]]]]]]]].
  destruct (identity_frame reqB later uidB sessB dbB1 dbB2 HupB HsessB) as [Happ _].
  rewrite HconfB, Hat, Ht in HrunB. cbn [refused] in HrunB.
  rewrite (booked_frame t later dbB2 Happ) in HrunB.
  destruct (booked t later) as [| b rest]; [contradiction |].
  exists dbB2, more. split; [exact HrunB |]. split; [exact Happ |].
  split; [rewrite Happ; exact Hmore | apply one_per_slot; exact HdbB2].
Qed.

(** C3, amended: a decline call never creates, updates or deletes an
    appointment row and appends no transcript entry; on a store that
    satisfies its constraints it is acknowledged as declined when session_id
    is present and scheduled_at parses, and is rejected with 400 otherwise. *)
Theorem decline_leaves_bookings_and_transcript (req : Request) (db : DB) :
  refused (confirm req) = true ->
  same_bookings_and_transcript db (snd (run (post_confirm req) db)) /\
  (consistent db ->
   negb (Js.present (session_id req)) || negb (Js.present (scheduled_at req)) = false ->
   Date_parse (Js.text (scheduled_at req)) <> None ->
   fst (run (post_confirm req) db) = Done declined) /\
  (negb (Js.present (session_id req)) || negb (Js.present (scheduled_at req)) = true ->
   run (post_confirm req) db = (Done missing_fields, db)) /\
  (negb (Js.present (session_id req)) || negb (Js.present (scheduled_at req)) = false ->
   Date_parse (Js.text (scheduled_at req)) = None ->
   run (post_confirm req) db = (Done not_iso8601, db)).
Proof.
  intros Hrefused. split; [| split; [| split]].
  - apply identity_only_frame. apply decline_only_identity. exact Hrefused.
  - intros Hdb Hguard Hparse.
    destruct (post_confirm_run req db Hdb Hguard Hparse)
      as [uid [sess [db1 [db2 [_ [_ [_ [_ Hrun]]]]]]]].
    rewrite Hrun, Hrefused. reflexivity.
  - intros Hguard. rewrite (missing_fields_no_await req Hguard). reflexivity.
  - intros Hguard Hparse. rewrite (not_iso8601_no_await req Hguard Hparse). reflexivity.
Qed.

(** C9: a decline call with a session_id and a parseable scheduled_at runs
    the user upsert and the session ensure, and only them, before it is
    acknowledged: the store it leaves is the store after these two steps, in
    which one user row carries the caller's identity and a session row
    carries the token, with the appointments and the transcript as they
    were. *)
Theorem decline_runs_identity_step (req : Request) (db : DB) :
  consistent db ->
  Js.present (session_id req) = true ->
  Js.present (scheduled_at req) = true ->
  Date_parse (Js.text (scheduled_at req)) <> None ->
  refused (confirm req) = true ->
  only identity_op (post_confirm req) /\
  exists uid sess db1 db2,
    run (upsertUser (subject req)) db = (Done uid, db1) /\
    run (ensureSession uid (session_id req)) db1 = (Done sess, db2) /\
    run (post_confirm req) db = (Done declined, db2) /\
    map u_id (users_with_email (email_of (subject req)) db2) = [uid] /\
    select_session (Js.text (session_id req)) db2 <> [] /\
    same_bookings_and_transcript db db2.
Proof.
  intros Hdb Hsid Hat Hparse Hrefused.
  split; [apply decline_only_identity; exact Hrefused |].
  assert (Hguard : negb (Js.present (session_id req))
                   || negb (Js.present (scheduled_at req)) = false)
    by (rewrite Hsid, Hat; reflexivity).
  destruct (identity_step req db Hdb) as [uid [sess [db1 [db2 [Hup [Hsess [Hone Hrow]]]]]]].
  destruct (post_confirm_run req db Hdb Hguard Hparse)
    as [uid' [sess' [db1' [db2' [Hup' [Hsess' [_ [_ Hrun]]]]]]]].
  rewrite Hup in Hup'. injection Hup' as <- <-.
  rewrite Hsess in Hsess'. injection Hsess' as <- <-.
  exists uid, sess, db1, db2. rewrite Hrefused in Hrun.
  repeat (split; [assumption |]).
  split; [exact (Hrow Hsid) |].
  exact (identity_frame req db uid sess db1 db2 Hup Hsess).
Qed.

End Booking.

Section Conversation.

Context `{Platform}.

(** C4, amended: for a message call with a text and a session token, when
    the interpreter call is rejected (unreachable, timed out) or its body is
    not JSON, the inbound user message is persisted, no assistant message is
    persisted, and the call is answered with 500 'failed to reach python
    service'. *)
Theorem interpreter_failure_keeps_inbound_only (req : Request) (db : DB) (tok : string) :
  consistent db ->
  Js.present (message req) = true ->
  session_id req = Some tok ->
  (forall data,
     interpreter (PY_SERVICE_URL ++ "/simulate")
       (Js.Obj [ ("message", Js.Str (Js.text (message req)));
                 ("user_id", Js.Str (subject req));
                 ("session_id", Js.of_field (session_id req)) ])
     <> Ok (Some data)) ->
  exists uid,
    fst (run (upsertUser (subject req)) db) = Done uid /\
    fst (run (post_message req) db) = Done python_unreachable /\
    chat_messages (snd (run (post_message req) db))
    = (chat_messages db ++
         [mkMessage (chat_messages_seq db) uid tok "user"
            (Js.Str (Js.text (message req))) (Js.Obj [])])%list /\
    appointments (snd (run (post_message req) db)) = appointments db.
Proof.
  intros Hdb Hmsg Htok Hdown.
  destruct (post_message_run req db tok Hdb Hmsg Htok)
    as [uid [sess [db1 [db2 [Hup [Hsess Hrun]]]]]].
  destruct (identity_frame req db uid sess db1 db2 Hup Hsess)
    as [Happ [_ [Hmsgs Hseq]]].
  cbv zeta in Hrun. exists uid. rewrite Hup. split; [reflexivity |].
  rewrite Hrun. clear Hrun.
  destruct (interpreter _ _) as [[data |] | e] eqn:Hanswer;
    [exfalso; exact (Hdown data eq_refl) | |];
    simpl; rewrite Hmsgs, Hseq, Happ; repeat split.
Qed.

Lemma upsert_user_again (email name : string) (db : DB) :
  users_with_email email db <> [] ->
  users (snd (upsert_user email name db)) = map (rename email name) (users db).
Proof.
  unfold upsert_user, users_with_email. intros Hsome.
  destruct (find _ (users db)) eqn:Hfind; [reflexivity |].
  exfalso. apply Hsome. apply no_email_no_row. apply find_email_none. exact Hfind.
Qed.

(** A user row, once stored, keeps its id and its email: whatever runs on
    the store, the rows that carry an email stay the same rows. *)
Lemma exec_keeps_user {X : Type} (op : Op X) (email : string) (id : Z) (db : DB) :
  map u_id (users_with_email email db) = [id] ->
  map u_id (users_with_email email (snd (exec op db))) = [id].
Proof.
  unfold users_with_email. intros Hone.
  destruct op as [other name | token | user_id token | user_id token role content meta
                 | at_ | user_id at_ | url body];
    simpl; try exact Hone.
  - unfold upsert_user. destruct (find _ (users db)) eqn:Hfind; simpl.
    + rewrite renamed_with_email. exact Hone.
    + destruct (user_exists (users_seq db) db); simpl; [exact Hone |].
      rewrite filter_app. simpl.
      destruct (other =? email)%string eqn:Hother.
      * apply String.eqb_eq in Hother. subst other.
        rewrite (no_email_no_row email (users db) (find_email_none _ _ Hfind)) in Hone.
        discriminate.
      * rewrite app_nil_r. exact Hone.
  - unfold insert_session. destruct (existsb _ (chat_sessions db)); [exact Hone |].
    destruct (negb (user_exists user_id db)); exact Hone.
  - unfold insert_message. destruct (jsonb_column meta); [| exact Hone].
    destruct token; [| exact Hone].
    destruct (is_null content); [exact Hone |].
    destruct (existsb _ (chat_messages db)); [exact Hone |].
    destruct (negb (user_exists user_id db)); exact Hone.
  - unfold insert_appointment. destruct (pg_timestamp at_) as [t |]; [| exact Hone].
    destruct (existsb _ (appointments db)); [exact Hone |].
    destruct (booked t db); [| exact Hone].
    destruct (negb (user_exists user_id db)); exact Hone.
Qed.

Lemma schedule_keeps_user (order : list nat) (email : string) (id : Z) (s : System) :
  map u_id (users_with_email email (store s)) = [id] ->
  map u_id (users_with_email email (store (schedule order s))) = [id].
Proof.
  revert s. induction order as [| i order IH]; intros s Hone; simpl; [exact Hone |].
  apply IH. unfold step. destruct (nth_error (pool s) i) as [[c l] |]; [| exact Hone].
  destruct c as [a | e | X op k]; try exact Hone.
  pose proof (exec_keeps_user op email id (store s) Hone) as Hstep.
  destruct (exec op (store s)) as [r db1]. exact Hstep.
Qed.

(** C7: on a store that satisfies its constraints, two calls of the user
    upsert with the same subject claim, one right after the other or with
    any activity on the store in between, return the same id, and after
    each of them exactly one user row carries the identity derived from the
    claim; the second call adds no row. *)
Theorem upsertUser_idempotent (claim : string) (db : DB)
    (others : list Thread) (between : list nat) :
  consistent db ->
  exists id db1 db2,
    run (upsertUser claim) db = (Done id, db1) /\
    run (upsertUser claim) (store (schedule between (mkSystem db1 others)))
    = (Done id, db2) /\
    map u_id (users_with_email (email_of claim) db1) = [id] /\
    map u_id (users_with_email (email_of claim) db2) = [id] /\
    List.length (users db2)
    = List.length (users (store (schedule between (mkSystem db1 others)))).
Proof.
  intros Hdb.
  destruct (upsertUser_ok claim db Hdb) as [id [Hrun1 [_ Hone1]]].
  set (db1 := snd (upsert_user (email_of claim) "Demo User" db)) in *.
  assert (Hdb1 : consistent db1) by (apply upsert_user_consistent; exact Hdb).
  set (later := store (schedule between (mkSystem db1 others))).
  assert (Hlater : consistent later) by (apply schedule_consistent; exact Hdb1).
  assert (Hone : map u_id (users_with_email (email_of claim) later) = [id])
    by (apply schedule_keeps_user; exact Hone1).
  destruct (upsertUser_ok claim later Hlater) as [id' [Hrun2 [_ Hone2]]].
  set (db2 := snd (upsert_user (email_of claim) "Demo User" later)) in *.
  assert (Hsome : users_with_email (email_of claim) later <> []).
  { intros Hnone. rewrite Hnone in Hone. discriminate. }
  pose proof (upsert_user_again (email_of claim) "Demo User" later Hsome) as Husers.
  fold db2 in Husers.
  assert (Hsame : id' = id).
  { unfold users_with_email in Hone2. rewrite Husers, renamed_with_email in Hone2.
    unfold users_with_email in Hone. rewrite Hone in Hone2.
    injection Hone2 as Heq. symmetry. exact Heq. }
  subst id'. exists id, db1, db2. repeat (split; [assumption |]).
  rewrite Husers. apply length_map.
Qed.

(** C8, amended: a session token already stored, under whichever user, and
    presented by another user is looked up by token alone: the session
    ensure answers with the id of the first stored session that carries the
    token and leaves the store as it was, so that no session row is created
    for the second user and the call is not rejected. *)
Theorem ensureSession_reuses_token (db : DB) (userA userB sidA : Z) (tok : string) :
  Js.present (Some tok) = true ->
  In (mkSession sidA userA tok) (chat_sessions db) ->
  exists s,
    In s (chat_sessions db) /\ s_session_token s = tok /\
    select_session tok db <> [] /\
    hd_error (select_session tok db) = Some (s_id s) /\
    run (ensureSession userB (Some tok)) db = (Done (Some (s_id s)), db).
Proof.
  intros Htok Hin.
  assert (Hfound : In (mkSession sidA userA tok)
                     (filter (fun s => (s_session_token s =? tok)%string)
                             (chat_sessions db))).
  { apply filter_In. split; [exact Hin |]. simpl. apply String.eqb_refl. }
  unfold ensureSession. rewrite Htok. cbn [negb Js.text].
  rewrite run_bind, run_await. cbn [exec]. unfold select_session.
  destruct (filter _ (chat_sessions db)) as [| s rest] eqn:Hfilter; [destruct Hfound |].
  assert (Hs : In s (filter (fun s => (s_session_token s =? tok)%string)
                            (chat_sessions db)))
    by (rewrite Hfilter; left; reflexivity).
  apply filter_In in Hs. destruct Hs as [Hs Hs_tok]. apply String.eqb_eq in Hs_tok.
  exists s. repeat split; try assumption. discriminate.
Qed.

End Conversation.

(** ** The claims at concrete requests *)

(** Bob passed the pre-check, lost the insert to Alice, and was answered
    with 500 server_error: the race is not answered with 409 conflict. *)
Lemma lost_race_not_conflict : ~ race_answers_conflict raced 1.
Proof.
  unfold race_answers_conflict. intros Hclaim.
  assert (Hrace : lost_race (seen_by raced 1) = true) by (vm_compute; reflexivity).
  specialize (Hclaim Hrace).
  assert (Hresp : response_of raced 1 = Some server_error) by (vm_compute; reflexivity).
  rewrite Hresp in Hclaim. discriminate Hclaim.
Qed.


Lemma lost_race_answers_server_error_witness :
  response_of raced 1 = Some server_error /\
  response_of raced 1 <> Some conflict /\
  forall uid at_ d e,
    fst (@insert_appointment offline uid at_ d) = Rejected e ->
    appointments (snd (@insert_appointment offline uid at_ d)) = appointments d.
Proof.
  apply (@lost_race_answers_server_error offline
           [@post_confirm offline alice_confirms; @post_confirm offline bob_confirms]
           both_prechecked_first empty_db 1%nat bob_confirms).
  - reflexivity.
  - vm_compute. reflexivity.
Defined.

Lemma one_confirmed_appointment_per_slot_witness :
  single_booking (store raced) /\
  exists dbB more,
    @run offline _ (@post_confirm offline bob_confirms)
      (snd (@run offline _ (@post_confirm offline alice_confirms) empty_db))
    = (Done conflict, dbB) /\
    appointments dbB
    = appointments (snd (@run offline _ (@post_confirm offline alice_confirms) empty_db)) /\
    appointments dbB
    = (appointments (snd (@run offline _ (@post_confirm offline alice_confirms) empty_db))
       ++ more)%list /\
    single_booking dbB.
Proof.
  apply (@one_confirmed_appointment_per_slot offline
           (mkSystem empty_db (spawn [@post_confirm offline alice_confirms;
                                      @post_confirm offline bob_confirms]))
           both_prechecked_first empty_db
           (snd (@run offline _ (@post_confirm offline alice_confirms) empty_db))
           alice_confirms bob_confirms
           [mkAppointment 1 1 1748858400000 "confirmed" (Some "Booked via chatbot")]
           [] []).
  - exact empty_db_consistent.
  - exact empty_db_consistent.
  - vm_compute. reflexivity.
  - reflexivity.
  - reflexivity.
  - reflexivity.
Defined.

(** Alice declines on the empty store: the call is acknowledged and the
    transcript stays empty, so no entry records the rejection. *)
Lemma decline_appends_no_transcript_entry :
  ~ @decline_records_rejection offline alice_declines empty_db.
Proof.
  unfold decline_records_rejection. intros Hclaim.
  destruct (Hclaim eq_refl) as [_ [[m [Hin _]] _]].
  vm_compute in Hin. exact Hin.
Qed.

Lemma decline_leaves_bookings_and_transcript_witness :
  same_bookings_and_transcript empty_db
    (snd (@run offline _ (@post_confirm offline alice_declines) empty_db)) /\
  fst (@run offline _ (@post_confirm offline alice_declines) empty_db) = Done declined.
Proof.
  destruct (@decline_leaves_bookings_and_transcript offline alice_declines empty_db
              eq_refl) as [Hframe [Hack _]].
  split; [exact Hframe |]. apply Hack.
  - exact empty_db_consistent.
  - reflexivity.
  - vm_compute. discriminate.
Defined.

Lemma decline_runs_identity_step_witness :
  only identity_op (@post_confirm offline alice_declines) /\
  exists uid sess db1 db2,
    @run offline _ (upsertUser (subject alice_declines)) empty_db = (Done uid, db1) /\
    @run offline _ (ensureSession uid (session_id alice_declines)) db1 = (Done sess, db2) /\
    @run offline _ (@post_confirm offline alice_declines) empty_db = (Done declined, db2) /\
    map u_id (users_with_email (email_of (subject alice_declines)) db2) = [uid] /\
    select_session (Js.text (session_id alice_declines)) db2 <> [] /\
    same_bookings_and_transcript empty_db db2.
Proof.
  apply (@decline_runs_identity_step offline alice_declines empty_db).
  - exact empty_db_consistent.
  - reflexivity.
  - reflexivity.
  - vm_compute. discriminate.
  - reflexivity.
Defined.

(** Alice writes while the interpreter is down: her message is the only row
    of the transcript afterwards, no assistant message explains the failure. *)
Lemma no_degraded_reply_logged : ~ @failure_is_explained offline alice_writes empty_db.
Proof.
  unfold failure_is_explained. intros Hclaim.
  assert (Hdown : forall url body data,
            @interpreter offline url body <> Ok (Some data))
    by (intros url body data; simpl; discriminate).
  destruct (Hclaim eq_refl Hdown) as [_ [m [Hin [_ Hrole]]]].
  vm_compute in Hin. destruct Hin as [<- | []]. discriminate.
Qed.

Lemma interpreter_failure_keeps_inbound_only_witness :
  exists uid,
    fst (@run offline _ (upsertUser (subject alice_writes)) empty_db) = Done uid /\
    fst (@run offline _ (@post_message offline alice_writes) empty_db)
    = Done python_unreachable /\
    chat_messages (snd (@run offline _ (@post_message offline alice_writes) empty_db))
    = (chat_messages empty_db ++
         [mkMessage (chat_messages_seq empty_db) uid "sess-a" "user"
            (Js.Str (Js.text (message alice_writes))) (Js.Obj [])])%list /\
    appointments (snd (@run offline _ (@post_message offline alice_writes) empty_db))
    = appointments empty_db.
Proof.
  apply (@interpreter_failure_keeps_inbound_only offline alice_writes empty_db "sess-a").
  - exact empty_db_consistent.
  - reflexivity.
  - reflexivity.
  - intros data. simpl. discriminate.
Defined.

Lemma upsertUser_idempotent_witness :
  exists id db1 db2,
    @run offline _ (upsertUser "alice") empty_db = (Done id, db1) /\
    @run offline _ (upsertUser "alice")
      (store (@schedule offline [0%nat; 0%nat]
                (mkSystem db1 (spawn [@post_confirm offline bob_confirms]))))
    = (Done id, db2) /\
    map u_id (users_with_email (email_of "alice") db1) = [id] /\
    map u_id (users_with_email (email_of "alice") db2) = [id] /\
    List.length (users db2)
    = List.length
        (users (store (@schedule offline [0%nat; 0%nat]
                         (mkSystem db1 (spawn [@post_confirm offline bob_confirms]))))).
Proof.
  apply (@upsertUser_idempotent offline "alice" empty_db
           (spawn [@post_confirm offline bob_confirms]) [0%nat; 0%nat]).
  exact empty_db_consistent.
Defined.

(** Bob presents the token of Alice's session: afterwards no session row
    with that token belongs to Bob. *)
Lemma session_not_rebound : ~ @rebound_to offline 2 "shared" alice_owns_shared.
Proof.
  unfold rebound_to. intros Hclaim. apply Hclaim. vm_compute. reflexivity.
Qed.

Lemma ensureSession_reuses_token_witness :
  exists s,
    In s (chat_sessions alice_owns_shared) /\ s_session_token s = "shared" /\
    @select_session "shared" alice_owns_shared <> [] /\
    hd_error (select_session "shared" alice_owns_shared) = Some (s_id s) /\
    @run offline _ (ensureSession 2 (Some "shared")) alice_owns_shared
    = (Done (Some (s_id s)), alice_owns_shared).
Proof.
  apply (@ensureSession_reuses_token offline alice_owns_shared 1 2 1 "shared").
  - reflexivity.
  - vm_compute. left. reflexivity.
Defined.

(** ** Authentication *)

Section AuthFacts.

Context `{Jwt}.

Lemma substring_all (s : string) : substring 0 (length s) s = s.
Proof. induction s as [| a s IH]; simpl; [reflexivity | rewrite IH; reflexivity]. Qed.

Lemma prefix_append (p t : string) : prefix p (p ++ t) = true.
Proof.
  induction p as [| a p IH]; simpl; [destruct t; reflexivity |].
  destruct (Ascii.ascii_dec a a) as [_ | Hne]; [exact IH | contradiction].
Qed.

Lemma substring_append (p t : string) :
  substring (length p) (length (p ++ t) - length p) (p ++ t) = t.
Proof.
  induction p as [| a p IH]; simpl.
  - rewrite Nat.sub_0_r. apply substring_all.
  - exact IH.
Qed.

Lemma prefix_split (p h : string) :
  prefix p h = true -> h = (p ++ substring (length p) (length h - length p) h)%string.
Proof.
  revert h. induction p as [| a p IH]; intros h Hp; simpl.
  - rewrite Nat.sub_0_r, substring_all. reflexivity.
  - destruct h as [| b h]; simpl in Hp; [discriminate |].
    destruct (Ascii.ascii_dec a b) as [<- | _]; [| discriminate].
    simpl. f_equal. apply IH. exact Hp.
Qed.

Lemma bearer_token_round_trip (tok : string) :
  bearer_token (Some ("Bearer " ++ tok)%string) = Some tok.
Proof.
  unfold bearer_token. cbn [Js.text]. rewrite prefix_append.
  exact (f_equal Some (substring_append "Bearer " tok)).
Qed.

Lemma bearer_token_header (hdr : option string) (tok : string) :
  bearer_token hdr = Some tok -> tok <> EmptyString ->
  hdr = Some ("Bearer " ++ tok)%string.
Proof.
  unfold bearer_token. intros Hb Htok.
  destruct (prefix "Bearer " (Js.text hdr)) eqn:Hp; [| discriminate].
  injection Hb as Hb. apply prefix_split in Hp.
  change (length "Bearer ") with 7%nat in Hp. rewrite Hb in Hp.
  destruct hdr as [h |]; simpl in Hp; [rewrite Hp; reflexivity | discriminate].
Qed.

Lemma present_nonempty (s : string) : Js.present (Some s) = true <-> s <> EmptyString.
Proof.
  simpl. destruct (String.eqb_spec s EmptyString) as [-> | Hne]; simpl; split;
    try discriminate; try congruence; auto.
Qed.

(** X1: the middleware lets a request through exactly when the header is
    "Bearer " followed by a non-empty token that jwt.verify accepts, and it
    hands on the payload jwt.verify decoded. *)
Theorem auth_accepts_exactly_verified_bearer (hdr : option string) (decoded : Decoded) :
  auth hdr = inr decoded <->
  exists tok, hdr = Some ("Bearer " ++ tok)%string /\ tok <> EmptyString /\
              jwt_verify tok = Some decoded.
Proof.
  unfold auth. split.
  - destruct (bearer_token hdr) as [tok |] eqn:Hb; [| simpl; discriminate].
    destruct (Js.present (Some tok)) eqn:Hp; [| simpl; discriminate].
    cbn [negb Js.text]. apply present_nonempty in Hp.
    destruct (jwt_verify tok) as [d |] eqn:Hv; [| discriminate].
    intros Hd. injection Hd as <-. exists tok.
    split; [exact (bearer_token_header hdr tok Hb Hp) |]. split; assumption.
  - intros [tok [-> [Htok Hv]]]. rewrite bearer_token_round_trip.
    apply present_nonempty in Htok. rewrite Htok. cbn [negb Js.text].
    rewrite Hv. reflexivity.
Qed.

(** X2: a request the middleware stops is answered 401: with 'missing token'
    when the header is absent, does not start with "Bearer " or carries
    nothing after it, and jwt.verify is then not consulted; with 'invalid
    token' when jwt.verify throws on the token. *)
Theorem auth_rejections (hdr : option string) (rejected : Response) :
  auth hdr = inl rejected ->
  (rejected = missing_token /\
   forall tok, hdr = Some ("Bearer " ++ tok)%string -> tok = EmptyString) \/
  (rejected = invalid_token /\
   exists tok, hdr = Some ("Bearer " ++ tok)%string /\ tok <> EmptyString /\
               jwt_verify tok = None).
Proof.
  unfold auth.
  destruct (bearer_token hdr) as [tok |] eqn:Hb.
  - destruct (Js.present (Some tok)) eqn:Hp; cbn [negb Js.text].
    + apply present_nonempty in Hp.
      destruct (jwt_verify tok) eqn:Hv; [discriminate |].
      intros Hr. injection Hr as <-. right. split; [reflexivity |].
      exists tok. split; [exact (bearer_token_header hdr tok Hb Hp) |]. split; assumption.
    + intros Hr. injection Hr as <-. left. split; [reflexivity |].
      intros tok' ->.
      assert (Heq : Some tok' = Some tok)
        by (rewrite <- Hb; symmetry; apply bearer_token_round_trip).
      injection Heq as ->.
      destruct (String.eqb_spec tok EmptyString) as [-> | Hne]; [reflexivity |].
      apply present_nonempty in Hne. rewrite Hne in Hp. discriminate.
  - simpl. intros Hr. injection Hr as <-. left. split; [reflexivity |].
    intros tok' ->.
    assert (Heq : Some tok' = None)
      by (rewrite <- Hb; symmetry; apply bearer_token_round_trip).
    discriminate.
Qed.

End AuthFacts.

(** ** Every handler answers *)

Section AnswerFacts.

Context `{Platform} `{Jwt} `{Clock}.

Lemma run_completes {A : Type} (p : Prog A) (db : DB) :
  exists l, completes p l (fst (run p db)).
Proof.
  revert db. induction p as [a | e | X op k IH]; intros db; simpl.
  - exists []. split; reflexivity.
  - exists []. split; reflexivity.
  - destruct (exec op db) as [r db1]. destruct (IH r db1) as [l Hl].
    exists (event op r :: l), r, l. split; [reflexivity | exact Hl].
Qed.

Lemma catch_all_answers {A : Type} (p : Prog A) (fallback : A) (l : list Event)
    (out : Outcome A) :
  completes (try_catch p (fun _ => Ret fallback)) l out -> exists a, out = Done a.
Proof.
  intros Hc. apply completes_try_catch in Hc.
  destruct Hc as [[a [_ ->]] | [e [l1 [l2 [_ [_ Hh]]]]]]; [exists a; reflexivity |].
  simpl in Hh. destruct Hh as [_ ->]. exists fallback. reflexivity.
Qed.

Lemma post_token_completes (l : list Event) (out : Outcome Response) :
  completes post_token l out ->
  out = Done (Respond 200 (Js.Obj [("token", Js.Str (jwt_sign token_payload));
                                   ("expires_in", Js.Num 300)])) /\
  exists r, l = [event (UpsertUser "user_1@demo.local" "Demo User") r].
Proof.
  unfold post_token, upsertUser.
  cbn [bind try_catch await Js.text d_sub token_payload completes append].
  intros [r [rest [-> Hc]]].
  destruct r as [[| id ids] | e]; cbn [bind try_catch completes] in Hc;
    destruct Hc as [-> ->]; (split; [reflexivity | eexists; reflexivity]).
Qed.

Lemma answered_some (p : Prog Response) (db : DB) :
  (forall l out, completes p l out -> exists resp, out = Done resp) ->
  exists resp, fst (answered (run p db)) = Some resp.
Proof.
  intros Hp. destruct (run_completes p db) as [l Hl].
  destruct (Hp l _ Hl) as [resp Hresp].
  destruct (run p db) as [[r | e] db1]; simpl in *; [exists r; reflexivity | discriminate].
Qed.

(** X3: the token endpoint answers 200 with the signed token whatever the
    storage does: it awaits the one user upsert for 'user_1' and swallows
    its failure. *)
Theorem token_issued_whatever_storage_does (l : list Event) (out : Outcome Response) :
  completes post_token l out ->
  out = Done (Respond 200 (Js.Obj [("token", Js.Str (jwt_sign token_payload));
                                   ("expires_in", Js.Num 300)])) /\
  exists r, l = [event (UpsertUser "user_1@demo.local" "Demo User") r].
Proof. apply post_token_completes. Qed.

(** X4: no handler ends in an unhandled rejection: against any behaviour of
    the storage and of the interpreter service the four asynchronous
    handlers send a response, and so does every route served alone. *)
Theorem every_request_is_answered :
  (forall req l out,
     completes (post_message req) l out \/ completes (post_confirm req) l out \/
     completes health_python l out \/ completes post_token l out ->
     exists resp, out = Done resp) /\
  (forall route i db, exists resp, fst (serve route i db) = Some resp).
Proof.
  assert (Hall : forall req l out,
     completes (post_message req) l out \/ completes (post_confirm req) l out \/
     completes health_python l out \/ completes post_token l out ->
     exists resp, out = Done resp).
  { intros req l out [Hc | [Hc | [Hc | Hc]]].
    - exact (catch_all_answers _ _ _ _ Hc).
    - exact (catch_all_answers _ _ _ _ Hc).
    - exact (catch_all_answers _ _ _ _ Hc).
    - destruct (post_token_completes l out Hc) as [-> _]. eexists. reflexivity. }
  split; [exact Hall |].
  intros route i db. destruct route; cbn [serve].
  - exists health. reflexivity.
  - apply answered_some. intros l out Hc. apply (Hall (request_of token_payload i) l out).
    right. right. left. exact Hc.
  - apply answered_some. intros l out Hc. apply (Hall (request_of token_payload i) l out).
    right. right. right. exact Hc.
  - unfold behind_auth. destruct (auth (authorization i)) as [r | d];
      [exists r; reflexivity |].
    apply answered_some. intros l out Hc. apply (Hall (request_of d i) l out).
    left. exact Hc.
  - unfold behind_auth. destruct (auth (authorization i)) as [r | d];
      [exists r; reflexivity |].
    apply answered_some. intros l out Hc. apply (Hall (request_of d i) l out).
    right. left. exact Hc.
  - unfold behind_auth. destruct (auth (authorization i)) as [r | d];
      [exists r; reflexivity |].
    destruct (get_messages (request_of d i) (params_session_id i) db) as [resp db1].
    exists resp. reflexivity.
  - unfold behind_auth. destruct (auth (authorization i)) as [r | d];
      [exists r; reflexivity |].
    destruct (purge_messages (request_of d i) (params_session_id i) db) as [resp db1].
    exists resp. reflexivity.
Qed.


End AnswerFacts.

(** ** The routes, served one after the other *)

Section RouteFacts.

Context `{Platform} `{Jwt} `{Clock}.

Lemma run_appends {A : Type} (p : Prog A) (db : DB) :
  exists l, appointments (snd (run p db)) = (appointments db ++ l)%list.
Proof.
  revert db. induction p as [a | e | X op k IH]; intros db; simpl.
  - exists []. rewrite app_nil_r. reflexivity.
  - exists []. rewrite app_nil_r. reflexivity.
  - pose proof (exec_appends op db) as [l1 Hl1].
    destruct (exec op db) as [r db1]. simpl in Hl1.
    destruct (IH r db1) as [l2 Hl2]. exists (l1 ++ l2)%list.
    rewrite Hl2, Hl1, app_assoc. reflexivity.
Qed.

Lemma delete_messages_consistent (user_id : Z) (token : string) (db : DB) :
  consistent db -> consistent (delete_messages user_id token db).
Proof.
  intros [Hu Hs Hm Ha He Hb]. constructor; simpl; try assumption.
  apply Forall_forall. intros m Hin. apply filter_In in Hin. destruct Hin as [Hin _].
  rewrite Forall_forall in Hm. exact (Hm m Hin).
Qed.

Lemma answered_snd (r : Outcome Response * DB) : snd (answered r) = snd r.
Proof. destruct r as [[resp | e] db]; reflexivity. Qed.

Lemma get_messages_store (req : Request) (sid : string) (db : DB) :
  snd (get_messages req sid db) = snd (run (upsertUser (subject req)) db).
Proof.
  unfold get_messages. destruct (run (upsertUser (subject req)) db) as [[uid | e] db1];
    reflexivity.
Qed.

Lemma purge_messages_store (req : Request) (sid : string) (db : DB) :
  exists user_id,
    snd (purge_messages req sid db)
    = delete_messages user_id sid (snd (run (upsertUser (subject req)) db)) \/
    snd (purge_messages req sid db) = snd (run (upsertUser (subject req)) db).
Proof.
  unfold purge_messages. destruct (run (upsertUser (subject req)) db) as [[uid | e] db1].
  - exists uid. left. reflexivity.
  - exists 0. right. reflexivity.
Qed.

Lemma serve_consistent (route : Route) (i : Incoming) (db : DB) :
  consistent db -> consistent (snd (serve route i db)).
Proof.
  intros Hdb. destruct route; cbn [serve]; try exact Hdb;
    try (rewrite answered_snd; apply run_consistent; exact Hdb);
    unfold behind_auth; destruct (auth (authorization i)) as [r | d]; try exact Hdb;
    try (rewrite answered_snd; apply run_consistent; exact Hdb).
  - pose proof (get_messages_store (request_of d i) (params_session_id i) db) as Hst.
    destruct (get_messages (request_of d i) (params_session_id i) db) as [resp db1].
    cbn [snd] in *. rewrite Hst. apply run_consistent. exact Hdb.
  - pose proof (purge_messages_store (request_of d i) (params_session_id i) db)
      as [uid [Hst | Hst]];
      destruct (purge_messages (request_of d i) (params_session_id i) db) as [resp db1];
      cbn [snd] in *; rewrite Hst.
    + apply delete_messages_consistent, run_consistent. exact Hdb.
    + apply run_consistent. exact Hdb.
Qed.

Lemma serve_appends (route : Route) (i : Incoming) (db : DB) :
  exists l, appointments (snd (serve route i db)) = (appointments db ++ l)%list.
Proof.
  assert (Hsame : exists l, appointments db = (appointments db ++ l)%list)
    by (exists []; rewrite app_nil_r; reflexivity).
  destruct route; cbn [serve]; try exact Hsame;
    try (rewrite answered_snd; apply run_appends);
    unfold behind_auth; destruct (auth (authorization i)) as [r | d]; try exact Hsame;
    try (rewrite answered_snd; apply run_appends).
  - pose proof (get_messages_store (request_of d i) (params_session_id i) db) as Hst.
    destruct (get_messages (request_of d i) (params_session_id i) db) as [resp db1].
    cbn [snd] in *. rewrite Hst. apply run_appends.
  - pose proof (purge_messages_store (request_of d i) (params_session_id i) db)
      as [uid [Hst | Hst]];
      destruct (purge_messages (request_of d i) (params_session_id i) db) as [resp db1];
      cbn [snd] in *; rewrite Hst; [| apply run_appends].
    unfold delete_messages. cbn [appointments set_messages]. apply run_appends.
Qed.

(** X6: whatever requests are served, on whatever routes, a store that
    satisfies its constraints keeps them, with at most one confirmed
    appointment per timestamp, and no appointment row is ever removed or
    altered: the appointments afterwards begin with the appointments
    before. *)
Theorem serving_keeps_constraints_and_bookings (requests : list (Route * Incoming))
    (db : DB) :
  consistent db ->
  consistent (snd (serve_all requests db)) /\
  single_booking (snd (serve_all requests db)) /\
  exists more, appointments (snd (serve_all requests db)) = (appointments db ++ more)%list.
Proof.
  intros Hdb.
  assert (Hboth : consistent (snd (serve_all requests db)) /\
                  exists more, appointments (snd (serve_all requests db))
                               = (appointments db ++ more)%list).
  { revert db Hdb. induction requests as [| [route i] rest IH]; intros db Hdb.
    - split; [exact Hdb |]. exists []. simpl. rewrite app_nil_r. reflexivity.
    - cbn [serve_all].
      pose proof (serve_consistent route i db Hdb) as Hstep.
      pose proof (serve_appends route i db) as [l1 Hl1].
      destruct (serve route i db) as [resp db1]. simpl in Hstep, Hl1.
      destruct (IH db1 Hstep) as [Hc [l2 Hl2]].
      destruct (serve_all rest db1) as [resps db2]. simpl in *.
      split; [exact Hc |]. exists (l1 ++ l2)%list. rewrite Hl2, Hl1, app_assoc.
      reflexivity. }
  destruct Hboth as [Hc Happ]. split; [exact Hc |].
  split; [apply one_per_slot; exact Hc | exact Happ].
Qed.

(** X7: requests that the middleware stops never reach the storage: a
    sequence of requests to the four protected routes, none of which
    authenticates, leaves the store as it was and is answered with 401s
    only. *)
Theorem rejected_requests_leave_the_store (requests : list (Route * Incoming)) (db : DB) :
  Forall (fun ri => protected (fst ri) = true /\
                    exists rejected, auth (authorization (snd ri)) = inl rejected)
         requests ->
  snd (serve_all requests db) = db /\
  Forall (fun resp => resp = Some missing_token \/ resp = Some invalid_token)
         (fst (serve_all requests db)).
Proof.
  induction 1 as [| [route i] rest [Hprot [rejected Hauth]] _ IH]; cbn [serve_all].
  - split; [reflexivity | constructor].
  - simpl in Hprot, Hauth.
    assert (Hserve : serve route i db = (Some rejected, db)).
    { destruct route; try discriminate; cbn [serve]; unfold behind_auth;
        rewrite Hauth; reflexivity. }
    rewrite Hserve. destruct (serve_all rest db) as [resps db2]. simpl in *.
    destruct IH as [-> Hresps]. split; [reflexivity |]. constructor; [| exact Hresps].
    destruct (auth_rejections (authorization i) rejected Hauth) as [[-> _] | [-> _]];
      [left | right]; reflexivity.
Qed.

End RouteFacts.

(** ** History and purge *)

Section TranscriptFacts.

Context `{Platform} `{Jwt} `{Clock}.

Lemma upsert_user_frame (email name : string) (db : DB) :
  chat_sessions (snd (upsert_user email name db)) = chat_sessions db /\
  chat_messages (snd (upsert_user email name db)) = chat_messages db /\
  appointments (snd (upsert_user email name db)) = appointments db.
Proof.
  unfold upsert_user. destruct (find _ (users db)); simpl; [repeat split |].
  destruct (user_exists (users_seq db) db); repeat split.
Qed.

(** The upsert of a subject whose row is stored answers with the id of
    that row. *)
Lemma upsertUser_known (claim : string) (db : DB) (id : Z) :
  consistent db ->
  map u_id (users_with_email (email_of claim) db) = [id] ->
  run (upsertUser claim) db
  = (Done id, snd (upsert_user (email_of claim) "Demo User" db)) /\
  map u_id (users_with_email (email_of claim)
              (snd (upsert_user (email_of claim) "Demo User" db))) = [id].
Proof.
  intros Hdb Hone.
  destruct (upsertUser_ok claim db Hdb) as [id' [Hrun [_ Hone']]].
  assert (Hsome : users_with_email (email_of claim) db <> []).
  { intros Hnone. rewrite Hnone in Hone. discriminate. }
  pose proof (upsert_user_again (email_of claim) "Demo User" db Hsome) as Husers.
  assert (Hsame : id' = id).
  { unfold users_with_email in Hone'. rewrite Husers, renamed_with_email in Hone'.
    unfold users_with_email in Hone. rewrite Hone in Hone'.
    injection Hone' as Heq. symmetry. exact Heq. }
  subst id'. split; assumption.
Qed.

Lemma none_left_in_scope (user_id : Z) (token : string) (l : list Message) :
  filter (in_scope user_id token)
         (filter (fun m => negb (in_scope user_id token m)) l) = [].
Proof.
  induction l as [| m l IH]; [reflexivity |]. simpl.
  destruct (in_scope user_id token m) eqn:Hm; simpl; [exact IH |].
  rewrite Hm. exact IH.
Qed.

Lemma by_created_at_nil : by_created_at [] = [].
Proof. apply Permutation_nil. apply Permutation_sym. apply by_created_at_perm. Qed.

Lemma in_scope_spec (user_id : Z) (token : string) (m : Message) :
  in_scope user_id token m = true <-> m_user_id m = user_id /\ m_session_token m = token.
Proof.
  unfold in_scope. rewrite andb_true_iff, Z.eqb_eq, String.eqb_eq. reflexivity.
Qed.

(** X8: the history route lists exactly the stored messages of the caller
    under the session id of the path, each once, none of another user even
    under the same session id, and writes no message, session or
    appointment row; it runs the user upsert first, as every protected
    handler does. *)
Theorem history_is_scoped_and_read_only (i : Incoming) (decoded : Decoded) (db : DB) :
  consistent db ->
  auth (authorization i) = inr decoded ->
  exists uid rows db1,
    run (upsertUser (subject (request_of decoded i))) db = (Done uid, db1) /\
    serve GET_messages i db = (Some (listed rows), db1) /\
    Permutation rows (filter (in_scope uid (params_session_id i)) (chat_messages db)) /\
    (forall m, In m rows <->
               In m (chat_messages db) /\ m_user_id m = uid /\
               m_session_token m = params_session_id i) /\
    chat_messages db1 = chat_messages db /\
    chat_sessions db1 = chat_sessions db /\
    appointments db1 = appointments db.
Proof.
  intros Hdb Hauth.
  destruct (upsertUser_ok (subject (request_of decoded i)) db Hdb) as [uid [Hup _]].
  destruct (upsert_user_frame (email_of (subject (request_of decoded i))) "Demo User" db)
    as [Hs [Hm Ha]].
  set (db1 := snd (upsert_user (email_of (subject (request_of decoded i)))
                     "Demo User" db)) in *.
  exists uid, (select_messages uid (params_session_id i) db1), db1.
  split; [exact Hup |]. split.
  { cbn [serve]. unfold behind_auth. rewrite Hauth. unfold get_messages.
    rewrite Hup. reflexivity. }
  assert (Hperm : Permutation (select_messages uid (params_session_id i) db1)
                    (filter (in_scope uid (params_session_id i)) (chat_messages db))).
  { unfold select_messages. rewrite Hm. apply by_created_at_perm. }
  split; [exact Hperm |]. split; [| repeat split; assumption].
  intros m. split.
  - intros Hin. apply (Permutation_in _ Hperm) in Hin. apply filter_In in Hin.
    destruct Hin as [Hin Hscope]. apply in_scope_spec in Hscope. split; assumption.
  - intros [Hin Hscope]. apply (Permutation_in _ (Permutation_sym Hperm)).
    apply filter_In. split; [exact Hin |]. apply in_scope_spec. exact Hscope.
Qed.

(** X9: the purge route deletes the caller's messages under the session id
    of the path and nothing else: every other message row, of another user
    or another session, stays, and so do all session and appointment rows. *)
Theorem purge_deletes_one_scope (i : Incoming) (decoded : Decoded) (db : DB) :
  consistent db ->
  auth (authorization i) = inr decoded ->
  exists uid db1,
    fst (run (upsertUser (subject (request_of decoded i))) db) = Done uid /\
    serve DELETE_messages i db = (Some deleted, db1) /\
    chat_messages db1
    = filter (fun m => negb (in_scope uid (params_session_id i) m)) (chat_messages db) /\
    (forall m, In m (chat_messages db1) <->
               In m (chat_messages db) /\
               ~ (m_user_id m = uid /\ m_session_token m = params_session_id i)) /\
    chat_sessions db1 = chat_sessions db /\
    appointments db1 = appointments db.
Proof.
  intros Hdb Hauth.
  destruct (upsertUser_ok (subject (request_of decoded i)) db Hdb) as [uid [Hup _]].
  destruct (upsert_user_frame (email_of (subject (request_of decoded i))) "Demo User" db)
    as [Hs [Hm Ha]].
  set (dbu := snd (upsert_user (email_of (subject (request_of decoded i)))
                     "Demo User" db)) in *.
  exists uid, (delete_messages uid (params_session_id i) dbu).
  split; [rewrite Hup; reflexivity |]. split.
  { cbn [serve]. unfold behind_auth. rewrite Hauth. unfold purge_messages.
    rewrite Hup. reflexivity. }
  unfold delete_messages. cbn [chat_messages chat_sessions appointments set_messages].
  rewrite Hm. split; [reflexivity |]. split; [| split; assumption].
  intros m. rewrite filter_In. rewrite negb_true_iff.
  rewrite <- (not_true_iff_false (in_scope uid (params_session_id i) m)).
  rewrite in_scope_spec. reflexivity.
Qed.

(** X10: after a purge, the history of the same caller and session id is
    empty, while the session rows are the ones stored before. *)
Theorem purge_then_history_is_empty (i : Incoming) (decoded : Decoded) (db : DB) :
  consistent db ->
  auth (authorization i) = inr decoded ->
  fst (serve DELETE_messages i db) = Some deleted /\
  fst (serve GET_messages i (snd (serve DELETE_messages i db))) = Some (listed []) /\
  chat_sessions (snd (serve GET_messages i (snd (serve DELETE_messages i db))))
  = chat_sessions db.
Proof.
  intros Hdb Hauth.
  destruct (upsertUser_ok (subject (request_of decoded i)) db Hdb) as [uid [Hup [_ Hone]]].
  destruct (upsert_user_frame (email_of (subject (request_of decoded i))) "Demo User" db)
    as [Hs [Hm Ha]].
  set (claim := subject (request_of decoded i)) in *.
  set (dbu := snd (upsert_user (email_of claim) "Demo User" db)) in *.
  assert (Hpurge : serve DELETE_messages i db
                   = (Some deleted, delete_messages uid (params_session_id i) dbu)).
  { cbn [serve]. unfold behind_auth. rewrite Hauth. unfold purge_messages.
    fold claim. rewrite Hup. reflexivity. }
  rewrite Hpurge. cbn [fst snd]. split; [reflexivity |].
  set (dbp := delete_messages uid (params_session_id i) dbu).
  assert (Hdbp : consistent dbp).
  { apply delete_messages_consistent. apply upsert_user_consistent. exact Hdb. }
  assert (Honep : map u_id (users_with_email (email_of claim) dbp) = [uid]) by exact Hone.
  destruct (upsertUser_known claim dbp uid Hdbp Honep) as [Hup2 _].
  destruct (upsert_user_frame (email_of claim) "Demo User" dbp) as [Hs2 [Hm2 _]].
  assert (Hget : serve GET_messages i dbp
                 = (Some (listed []), snd (upsert_user (email_of claim) "Demo User" dbp))).
  { cbn [serve]. unfold behind_auth. rewrite Hauth. unfold get_messages.
    fold claim. rewrite Hup2. unfold select_messages. rewrite Hm2.
    unfold dbp, delete_messages. cbn [chat_messages set_messages].
    rewrite none_left_in_scope, by_created_at_nil. reflexivity. }
  rewrite Hget. cbn [fst snd]. split; [reflexivity |].
  rewrite Hs2. unfold dbp, delete_messages. cbn [chat_sessions set_messages]. exact Hs.
Qed.

End TranscriptFacts.

(** ** What a handler logs is what the history lists *)

Section RoundTrips.

Context `{Platform} `{Jwt} `{Clock}.

Lemma listed_after (req : Request) (sid : string) (db : DB) (uid : Z) (m : Message) :
  consistent db ->
  map u_id (users_with_email (email_of (subject req)) db) = [uid] ->
  In m (chat_messages db) -> m_user_id m = uid -> m_session_token m = sid ->
  exists rows db1, get_messages req sid db = (listed rows, db1) /\ In m rows.
Proof.
  intros Hdb Hone Hin Huid Hsid.
  destruct (upsertUser_known (subject req) db uid Hdb Hone) as [Hup _].
  destruct (upsert_user_frame (email_of (subject req)) "Demo User" db) as [_ [Hm _]].
  unfold get_messages. rewrite Hup. eexists. eexists. split; [reflexivity |].
  unfold select_messages. rewrite Hm.
  apply (Permutation_in _ (Permutation_sym (by_created_at_perm _))).
  apply filter_In. split; [exact Hin |]. apply in_scope_spec. split; assumption.
Qed.

(** X11: a message posted under a session id is listed by the history route
    for the same caller and session id, as a row of role 'user' with the
    text as content, whether or not the interpreter answered. *)
Theorem posted_message_is_listed (i : Incoming) (decoded : Decoded) (tok : string)
    (db : DB) :
  consistent db ->
  auth (authorization i) = inr decoded ->
  Js.present (body_message i) = true ->
  body_session_id i = Some tok ->
  params_session_id i = tok ->
  exists rows db2 m,
    serve GET_messages i (snd (serve POST_message i db)) = (Some (listed rows), db2) /\
    In m rows /\ m_role m = "user" /\ m_session_token m = tok /\
    m_content m = Js.Str (Js.text (body_message i)).
Proof.
  intros Hdb Hauth Hmsg Htok Hparam.
  set (req := request_of decoded i).
  destruct (post_message_run req db tok Hdb Hmsg Htok)
    as [uid [sess [db1 [db2 [Hup [Hsess Hrun]]]]]].
  destruct (identity_step req db Hdb)
    as [uid' [sess' [db1' [db2' [Hup' [Hsess' [Hone _]]]]]]].
  rewrite Hup in Hup'. injection Hup' as <- <-.
  rewrite Hsess in Hsess'. injection Hsess' as <- <-.
  cbv zeta in Hrun.
  set (inbound := mkMessage (chat_messages_seq db2) uid tok "user"
                    (Js.Str (Js.text (message req))) (Js.Obj [])) in *.
  assert (Hstore : snd (serve POST_message i db) = snd (run (post_message req) db)).
  { cbn [serve]. unfold behind_auth. rewrite Hauth. apply answered_snd. }
  rewrite Hstore.
  assert (HdbF : consistent (snd (run (post_message req) db)))
    by (apply run_consistent; exact Hdb).
  assert (Hfacts : users (snd (run (post_message req) db)) = users db2 /\
                   In inbound (chat_messages (snd (run (post_message req) db)))).
  { rewrite Hrun. destruct (interpreter _ _) as [[data |] | e];
      cbn [snd users chat_messages set_messages bump_messages];
      (split; [reflexivity |]); rewrite ?in_app_iff; simpl; auto. }
  destruct Hfacts as [Husers Hin].
  assert (HoneF : map u_id (users_with_email (email_of (subject req))
                              (snd (run (post_message req) db))) = [uid]).
  { unfold users_with_email in *. rewrite Husers. exact Hone. }
  destruct (listed_after req tok _ uid inbound HdbF HoneF Hin eq_refl eq_refl)
    as [rows [dbG [Hget Hrows]]].
  exists rows, dbG, inbound. split.
  { cbn [serve]. unfold behind_auth. rewrite Hauth. fold req. rewrite Hparam, Hget.
    reflexivity. }
  split; [exact Hrows |]. repeat split.
Qed.

(** X12: on a store that satisfies its constraints, a confirm call for a slot
    that no confirmed appointment holds is answered 200 'confirmed' with the
    new row; exactly one appointment row is appended, confirmed, owned by the
    caller, at the requested timestamp; and exactly one transcript row is
    appended, an assistant message that carries the id of that appointment. *)
Theorem free_slot_is_booked (req : Request) (db : DB) (t : Z) :
  consistent db ->
  Js.present (session_id req) = true ->
  Js.present (scheduled_at req) = true ->
  Date_parse (Js.text (scheduled_at req)) <> None ->
  confirm req = Some true ->
  pg_timestamp (Js.text (scheduled_at req)) = Some t ->
  booked t db = [] ->
  exists uid row,
    fst (run (upsertUser (subject req)) db) = Done uid /\
    row = mkAppointment (appointments_seq db) uid t "confirmed" (Some "Booked via chatbot") /\
    fst (run (post_confirm req) db) = Done (confirmed [row]) /\
    appointments (snd (run (post_confirm req) db)) = (appointments db ++ [row])%list /\
    chat_messages (snd (run (post_confirm req) db))
    = (chat_messages db ++
         [mkMessage (chat_messages_seq db) uid (Js.text (session_id req)) "assistant"
            (Js.Str ("Confirmed your appointment for "
                     ++ Js.text (scheduled_at req) ++ "."))
            (Js.Obj [ ("appointment_id", Js.Num (a_id row));
                      ("status", Js.Str "confirmed") ])])%list.
Proof.
  intros Hdb Hsid Hat Hparse Hconf Ht Hfree.
  assert (Hguard : negb (Js.present (session_id req))
                   || negb (Js.present (scheduled_at req)) = false)
    by (rewrite Hsid, Hat; reflexivity).
  destruct (post_confirm_run req db Hdb Hguard Hparse)
    as [uid [sess [db1 [db2 [Hup [Hsess [_ [_ Hrun]]]]]]]].
  destruct (identity_frame req db uid sess db1 db2 Hup Hsess)
    as [Happ [Hseq [Hmsgs Hmseq]]].
  rewrite Hconf, Ht, (booked_frame t db db2 Happ), Hfree in Hrun.
  cbn [refused] in Hrun. cbv zeta in Hrun.
  exists uid, (mkAppointment (appointments_seq db) uid t "confirmed"
                 (Some "Booked via chatbot")).
  rewrite Hup, Hrun. cbn [fst snd appointments chat_messages chat_messages_seq
                          set_messages bump_messages set_appointments bump_appointments
                          a_id].
  rewrite Hseq, Happ, Hmsgs, Hmseq. repeat split.
Qed.

(** X13: a confirm call whose scheduled_at satisfies Date.parse but is not a
    timestamp for the storage is answered with the generic 500
    'server_error', after the user upsert and the session ensure have run;
    it writes no appointment and no transcript row. *)
Theorem timestamp_only_javascript_accepts (req : Request) (db : DB) :
  consistent db ->
  Js.present (session_id req) = true ->
  Js.present (scheduled_at req) = true ->
  Date_parse (Js.text (scheduled_at req)) <> None ->
  pg_timestamp (Js.text (scheduled_at req)) = None ->
  confirm req = Some true ->
  fst (run (post_confirm req) db) = Done server_error /\
  same_bookings_and_transcript db (snd (run (post_confirm req) db)) /\
  select_session (Js.text (session_id req)) (snd (run (post_confirm req) db)) <> [].
Proof.
  intros Hdb Hsid Hat Hparse Hpg Hconf.
  assert (Hguard : negb (Js.present (session_id req))
                   || negb (Js.present (scheduled_at req)) = false)
    by (rewrite Hsid, Hat; reflexivity).
  destruct (post_confirm_run req db Hdb Hguard Hparse)
    as [uid [sess [db1 [db2 [Hup [Hsess [_ [_ Hrun]]]]]]]].
  destruct (identity_step req db Hdb)
    as [uid' [sess' [db1' [db2' [Hup' [Hsess' [_ Hrow]]]]]]].
  rewrite Hup in Hup'. injection Hup' as <- <-.
  rewrite Hsess in Hsess'. injection Hsess' as <- <-.
  rewrite Hconf, Hpg in Hrun. cbn [refused] in Hrun. rewrite Hrun. cbn [fst snd].
  split; [reflexivity |]. split; [| exact (Hrow Hsid)].
  exact (identity_frame req db uid sess db1 db2 Hup Hsess).
Qed.

End RoundTrips.

(** ** The confirm handler on any store *)

Section ConfirmFacts.

Context `{Platform}.

Lemma insert_message_frame (user_id : Z) (token : option string) (role : string)
    (content meta : Js.value) (db : DB) :
  appointments (snd (insert_message user_id token role content meta db))
  = appointments db.
Proof.
  unfold insert_message. destruct (jsonb_column meta); [| reflexivity].
  destruct token; [| reflexivity].
  destruct (is_null content); [reflexivity |].
  destruct (existsb _ (chat_messages db)); [reflexivity |].
  destruct (negb (user_exists user_id db)); reflexivity.
Qed.

(** X14: on any store, consistent or not, the confirm handler appends an
    appointment row exactly when it answers 200 'confirmed', and then
    exactly the one confirmed row the answer carries; with every other
    answer the appointment rows are the ones stored before. *)
Theorem appointment_written_exactly_when_confirmed (req : Request) (db : DB) :
  (exists a,
     fst (run (post_confirm req) db) = Done (confirmed [a]) /\
     appointments (snd (run (post_confirm req) db)) = (appointments db ++ [a])%list /\
     a_id a = appointments_seq db /\ is_confirmed a = true) \/
  (appointments (snd (run (post_confirm req) db)) = appointments db /\
   forall rows, fst (run (post_confirm req) db) <> Done (confirmed rows)).
Proof.
  unfold post_confirm. rewrite run_try_catch.
  destruct (negb (Js.present (session_id req)) || negb (Js.present (scheduled_at req))).
  { right. split; [reflexivity | intros rows; discriminate]. }
  destruct (Date_parse (Js.text (scheduled_at req))).
  2: { right. split; [reflexivity | intros rows; discriminate]. }
  rewrite run_bind.
  pose proof (identity_only_frame _ db (upsertUser_only (subject req))) as [F1 [S1 _]].
  destruct (run (upsertUser (subject req)) db) as [[uid | e] db1]; cbn [snd] in F1, S1.
  2: { right. split; [exact F1 | intros rows; discriminate]. }
  rewrite run_bind.
  pose proof (identity_only_frame _ db1 (ensureSession_only uid (session_id req)))
    as [F2 [S2 _]].
  destruct (run (ensureSession uid (session_id req)) db1) as [[sess | e] db2];
    cbn [snd] in F2, S2.
  2: { right. split; [cbn [run snd]; rewrite F2; exact F1 | intros rows; discriminate]. }
  destruct (refused (confirm req)).
  { right. split; [cbn [run snd]; rewrite F2; exact F1 | intros rows; discriminate]. }
  rewrite run_bind, run_await. cbn [exec]. unfold select_confirmed.
  destruct (pg_timestamp (Js.text (scheduled_at req))) as [t |] eqn:Ht.
  2: { right. split; [cbn [run snd]; rewrite F2; exact F1 | intros rows; discriminate]. }
  destruct (booked t db2) as [| b rest] eqn:Hb.
  2: { cbn [map firstn List.length Nat.ltb Nat.leb].
       right. split; [cbn [run snd]; rewrite F2; exact F1 | intros rows; discriminate]. }
  cbn [map firstn List.length Nat.ltb Nat.leb].
  rewrite run_bind, run_await. cbn [exec]. unfold insert_appointment. rewrite Ht, Hb.
  destruct (existsb (fun a => a_id a =? appointments_seq db2) (appointments db2)).
  { right. split; [cbn [run snd appointments bump_appointments]; rewrite F2; exact F1
                  | intros rows; discriminate]. }
  destruct (negb (user_exists uid db2)).
  { right. split; [cbn [run snd appointments bump_appointments]; rewrite F2; exact F1
                  | intros rows; discriminate]. }
  cbv zeta. rewrite run_bind, run_try_catch. unfold logMessage. rewrite run_await.
  cbn [exec].
  match goal with
  | |- context [insert_message ?u ?tk ?r ?c ?m ?d] =>
      pose proof (insert_message_frame u tk r c m d) as Fm;
      destruct (insert_message u tk r c m d) as [[[] | e] dbm]
  end; cbn [snd] in Fm; cbn [run fst snd];
    left; eexists; (split; [reflexivity |]);
    rewrite Fm; cbn [appointments set_appointments bump_appointments a_id];
    rewrite F2, F1, S2, S1; repeat split.
Qed.

End ConfirmFacts.

(** ** Sessions and exchanges *)

Section SessionFacts.

Context `{Platform} `{Jwt} `{Clock}.

Lemma hd_error_app_some {A : Type} (l l' : list A) (x : A) :
  hd_error l = Some x -> hd_error (l ++ l') = Some x.
Proof. destruct l; [discriminate | intros Hx; exact Hx]. Qed.

Lemma exec_keeps_session {X : Type} (op : Op X) (tok : string) (id : Z) (db : DB) :
  hd_error (select_session tok db) = Some id ->
  hd_error (select_session tok (snd (exec op db))) = Some id.
Proof.
  unfold select_session. intros Hhd.
  destruct op as [email name | token | user_id token | user_id token role content meta
                 | at_ | user_id at_ | url body];
    simpl; try exact Hhd.
  - unfold upsert_user. destruct (find _ (users db)); simpl; [exact Hhd |].
    destruct (user_exists (users_seq db) db); exact Hhd.
  - unfold insert_session. destruct (existsb _ (chat_sessions db)); [exact Hhd |].
    destruct (negb (user_exists user_id db)); [exact Hhd |]. simpl.
    rewrite filter_app, map_app. apply hd_error_app_some. exact Hhd.
  - unfold insert_message. destruct (jsonb_column meta); [| exact Hhd].
    destruct token; [| exact Hhd].
    destruct (is_null content); [exact Hhd |].
    destruct (existsb _ (chat_messages db)); [exact Hhd |].
    destruct (negb (user_exists user_id db)); exact Hhd.
  - unfold insert_appointment. destruct (pg_timestamp at_) as [t |]; [| exact Hhd].
    destruct (existsb _ (appointments db)); [exact Hhd |].
    destruct (booked t db); [| exact Hhd].
    destruct (negb (user_exists user_id db)); exact Hhd.
Qed.

Lemma schedule_keeps_session (order : list nat) (tok : string) (id : Z) (s : System) :
  hd_error (select_session tok (store s)) = Some id ->
  hd_error (select_session tok (store (schedule order s))) = Some id.
Proof.
  revert s. induction order as [| i order IH]; intros s Hhd; simpl; [exact Hhd |].
  apply IH. unfold step. destruct (nth_error (pool s) i) as [[c l] |]; [| exact Hhd].
  destruct c as [a | e | X op k]; try exact Hhd.
  pose proof (exec_keeps_session op tok id (store s) Hhd) as Hstep.
  destruct (exec op (store s)) as [r db1]. exact Hstep.
Qed.

Lemma ensureSession_found (user_id id : Z) (tok : string) (db : DB) :
  Js.present (Some tok) = true ->
  hd_error (select_session tok db) = Some id ->
  run (ensureSession user_id (Some tok)) db = (Done (Some id), db).
Proof.
  intros Htok Hhd. unfold ensureSession. rewrite Htok. cbn [negb Js.text].
  rewrite run_bind, run_await. cbn [exec].
  destruct (select_session tok db) as [| first rest]; [discriminate |].
  injection Hhd as ->. reflexivity.
Qed.

(** X15: the session ensure is idempotent on the token: a first call returns
    a session id and adds at most one row; any later call with the same
    token, by the same or another user, after any activity on the store,
    returns that same id and leaves the store as it finds it. *)
Theorem ensureSession_idempotent (user_id other : Z) (tok : string) (db : DB)
    (others : list Thread) (between : list nat) :
  consistent db ->
  user_exists user_id db = true ->
  Js.present (Some tok) = true ->
  exists id db1,
    run (ensureSession user_id (Some tok)) db = (Done (Some id), db1) /\
    (List.length (chat_sessions db1) <= S (List.length (chat_sessions db)))%nat /\
    run (ensureSession other (Some tok)) (store (schedule between (mkSystem db1 others)))
    = (Done (Some id), store (schedule between (mkSystem db1 others))).
Proof.
  intros Hdb Hu Htok.
  pose proof (run_ensureSession user_id (Some tok) db Hdb Hu) as Hrun.
  rewrite Htok in Hrun. cbn [negb Js.text] in Hrun.
  destruct (select_session tok db) as [| id rest] eqn:Hsel.
  - exists (chat_sessions_seq db). eexists. split; [exact Hrun |]. split.
    + simpl. rewrite length_app. simpl. lia.
    + apply ensureSession_found; [exact Htok |]. apply schedule_keeps_session.
      unfold select_session in *. simpl. rewrite filter_app, map_app, Hsel. simpl.
      rewrite String.eqb_refl. reflexivity.
  - exists id, db. split; [exact Hrun |]. split; [lia |].
    apply ensureSession_found; [exact Htok |]. apply schedule_keeps_session.
    simpl. rewrite Hsel. reflexivity.
Qed.







(** X18: a successful confirm is visible in the history of the same caller
    and session id: the route lists an 'assistant' row that reads
    'Confirmed your appointment for <scheduled_at>.'. *)
Theorem confirmation_is_listed (i : Incoming) (decoded : Decoded) (t : Z) (db : DB) :
  consistent db ->
  auth (authorization i) = inr decoded ->
  Js.present (body_session_id i) = true ->
  Js.present (body_scheduled_at i) = true ->
  Date_parse (Js.text (body_scheduled_at i)) <> None ->
  body_confirm i = Some true ->
  pg_timestamp (Js.text (body_scheduled_at i)) = Some t ->
  booked t db = [] ->
  params_session_id i = Js.text (body_session_id i) ->
  exists rows db2 m,
    serve GET_messages i (snd (serve POST_confirm i db)) = (Some (listed rows), db2) /\
    In m rows /\ m_role m = "assistant" /\
    m_content m = Js.Str ("Confirmed your appointment for "
                          ++ Js.text (body_scheduled_at i) ++ ".").
Proof.
  intros Hdb Hauth Hsid Hat Hparse Hconf Ht Hfree Hparam.
  set (req := request_of decoded i).
  assert (Hguard : negb (Js.present (session_id req))
                   || negb (Js.present (scheduled_at req)) = false)
    by (unfold req; cbn [request_of session_id scheduled_at]; rewrite Hsid, Hat;
        reflexivity).
  destruct (post_confirm_run req db Hdb Hguard Hparse)
    as [uid [sess [db1 [db2 [Hup [Hsess [_ [_ Hrun]]]]]]]].
  destruct (identity_step req db Hdb)
    as [uid' [sess' [db1' [db2' [Hup' [Hsess' [Hone _]]]]]]].
  rewrite Hup in Hup'. injection Hup' as <- <-.
  rewrite Hsess in Hsess'. injection Hsess' as <- <-.
  destruct (identity_frame req db uid sess db1 db2 Hup Hsess) as [Happ _].
  unfold req in Hrun at 2 3 4. cbn [request_of confirm scheduled_at] in Hrun.
  rewrite Hconf, Ht, (booked_frame t db db2 Happ), Hfree in Hrun.
  cbn [refused] in Hrun. cbv zeta in Hrun.
  assert (Hstore : snd (serve POST_confirm i db) = snd (run (post_confirm req) db)).
  { cbn [serve]. unfold behind_auth. rewrite Hauth. apply answered_snd. }
  rewrite Hstore.
  assert (HdbF : consistent (snd (run (post_confirm req) db)))
    by (apply run_consistent; exact Hdb).
  assert (HoneF : map u_id (users_with_email (email_of (subject req))
                              (snd (run (post_confirm req) db))) = [uid]).
  { rewrite Hrun. exact Hone. }
  match type of Hrun with
  | _ = (_, set_messages (_ ++ [?m])%list _) =>
      assert (Hin : In m (chat_messages (snd (run (post_confirm req) db))))
        by (rewrite Hrun; cbn [snd chat_messages set_messages]; apply in_or_app;
            right; left; reflexivity);
      destruct (listed_after req (Js.text (body_session_id i)) _ uid m
                  HdbF HoneF Hin eq_refl eq_refl) as [rows [dbG [Hget Hrows]]];
      exists rows, dbG, m
  end.
  split.
  { cbn [serve]. unfold behind_auth. rewrite Hauth. fold req. rewrite Hparam, Hget.
    reflexivity. }
  split; [exact Hrows |]. split; reflexivity.
Qed.

End SessionFacts.

(** ** The connection pool and the session id of the browser *)

Lemma getPool_each_created (environments : list (option string)) (p : PgPool) :
  Forall (fun answer => answer = (p, false)) (fst (getPool_each environments (Some p))) /\
  snd (getPool_each environments (Some p)) = Some p.
Proof.
  induction environments as [| env rest [IHa IHf]]; simpl; [split; [constructor | reflexivity] |].
  destruct (getPool_each rest (Some p)) as [answers final]. simpl in *.
  split; [constructor; [reflexivity | exact IHa] | exact IHf].
Qed.

(** X19: the pool is created by the first query and reused by every later
    one: it is built from the DATABASE_URL of that first moment with a cap
    of 10 connections, later values of the variable are ignored, and the
    warning about a missing DATABASE_URL is printed at most once, by the
    first call. *)
Theorem pool_is_created_once (first : option string) (later : list (option string)) :
  Forall (fun answer => fst answer = mkPgPool first 10)
         (fst (getPool_each (first :: later) None)) /\
  snd (getPool_each (first :: later) None) = Some (mkPgPool first 10) /\
  Forall (fun answer => snd answer = false) (tl (fst (getPool_each (first :: later) None))) /\
  hd_error (map snd (fst (getPool_each (first :: later) None)))
  = Some (negb (Js.present first)).
Proof.
  cbn [getPool_each getPool].
  destruct (getPool_each_created later (mkPgPool first 10)) as [Hall Hfinal].
  destruct (getPool_each later (Some (mkPgPool first 10))) as [answers final].
  cbn [fst snd tl map hd_error] in *.
  split; [| split; [exact Hfinal | split; [| reflexivity]]].
  - constructor; [reflexivity |]. eapply Forall_impl; [| exact Hall].
    intros answer ->. reflexivity.
  - eapply Forall_impl; [| exact Hall]. intros answer ->. reflexivity.
Qed.

(** X20: the session id of the browser is generated once and then kept:
    whatever localStorage held, the id the hook returns is stored, every
    later initialisation returns it again whatever crypto.randomUUID would
    answer, and it passes the presence test of the backend handlers. *)
Theorem session_id_survives_reloads (randomUUID : string) (stored : option string) :
  randomUUID <> EmptyString ->
  Js.present (Some (fst (useSessionId randomUUID stored))) = true /\
  forall other,
    useSessionId other (snd (useSessionId randomUUID stored))
    = (fst (useSessionId randomUUID stored), snd (useSessionId randomUUID stored)).
Proof.
  intros Hfresh. unfold useSessionId.
  destruct (Js.present stored) eqn:Hstored; cbn [fst snd].
  - destruct stored as [s |]; [| discriminate]. cbn [Js.text].
    split; [exact Hstored |]. intros other. rewrite Hstored. reflexivity.
  - apply present_nonempty in Hfresh. split; [exact Hfresh |].
    intros other. rewrite Hfresh. reflexivity.
Qed.

(** ** The further properties at concrete requests *)

Lemma serve_all_consistent `{Platform} `{Jwt} `{Clock}
    (requests : list (Route * Incoming)) (db : DB) :
  consistent db -> consistent (snd (serve_all requests db)).
Proof.
  revert db. induction requests as [| [route i] rest IH]; intros db Hdb; [exact Hdb |].
  cbn [serve_all]. pose proof (serve_consistent route i db Hdb) as Hstep.
  destruct (serve route i db) as [resp db1]. cbn [snd] in Hstep.
  specialize (IH db1 Hstep). destruct (serve_all rest db1) as [resps db2]. exact IH.
Qed.

Lemma after_booking_consistent : consistent after_booking.
Proof. apply serve_all_consistent. exact empty_db_consistent. Qed.

Lemma auth_rejections_witness :
  (invalid_token = missing_token /\
   forall tok, Some "Bearer forged" = Some ("Bearer " ++ tok)%string -> tok = EmptyString) \/
  (invalid_token = invalid_token /\
   exists tok, Some "Bearer forged" = Some ("Bearer " ++ tok)%string /\
               tok <> EmptyString /\ @jwt_verify demo_jwt tok = None).
Proof.
  apply (@auth_rejections demo_jwt (Some "Bearer forged") invalid_token). reflexivity.
Defined.

Lemma token_issued_whatever_storage_does_witness :
  exists r,
    [event (UpsertUser "user_1@demo.local" "Demo User")
           (Rejected (PgError unique_violation))]
    = [event (UpsertUser "user_1@demo.local" "Demo User") r].
Proof.
  apply (@token_issued_whatever_storage_does demo_jwt
           [event (UpsertUser "user_1@demo.local" "Demo User")
                  (Rejected (PgError unique_violation))]
           (Done (Respond 200 (Js.Obj [("token", Js.Str "user_1-token");
                                       ("expires_in", Js.Num 300)])))).
  unfold post_token, upsertUser.
  cbn [bind try_catch await Js.text d_sub token_payload completes append].
  eexists. eexists. split; [reflexivity |]. cbn [bind try_catch completes].
  split; reflexivity.
Defined.

Lemma serving_keeps_constraints_and_bookings_witness :
  single_booking
    (snd (@serve_all online demo_jwt insertion_order
            [(POST_message, alice_posts); (POST_confirm, alice_books);
             (DELETE_messages, alice_posts)] empty_db)).
Proof.
  apply (@serving_keeps_constraints_and_bookings online demo_jwt insertion_order
           [(POST_message, alice_posts); (POST_confirm, alice_books);
            (DELETE_messages, alice_posts)] empty_db).
  exact empty_db_consistent.
Defined.

Lemma rejected_requests_leave_the_store_witness :
  snd (@serve_all online demo_jwt insertion_order
         [(POST_message, stranger_posts); (DELETE_messages, anonymous_purges)]
         after_booking) = after_booking.
Proof.
  apply (@rejected_requests_leave_the_store online demo_jwt insertion_order
           [(POST_message, stranger_posts); (DELETE_messages, anonymous_purges)]
           after_booking).
  constructor; [| constructor; [| constructor]].
  - split; [reflexivity |]. exists invalid_token. reflexivity.
  - split; [reflexivity |]. exists missing_token. reflexivity.
Defined.

Lemma history_is_scoped_and_read_only_witness :
  exists uid rows db1,
    @serve online demo_jwt insertion_order GET_messages bob_reads_alices_session
      after_booking = (Some (listed rows), db1) /\
    Permutation rows (filter (in_scope uid "sess-a") (chat_messages after_booking)) /\
    chat_messages db1 = chat_messages after_booking.
Proof.
  destruct (@history_is_scoped_and_read_only online demo_jwt insertion_order
              bob_reads_alices_session (mkDecoded (Some "bob") (Some "user"))
              after_booking after_booking_consistent eq_refl)
    as [uid [rows [db1 [_ [Hserve [Hperm [_ [Hmsgs _]]]]]]]].
  exists uid, rows, db1. split; [exact Hserve |]. split; [exact Hperm | exact Hmsgs].
Defined.

Lemma purge_deletes_one_scope_witness :
  exists uid db1,
    @serve online demo_jwt insertion_order DELETE_messages bob_reads_alices_session
      after_booking = (Some deleted, db1) /\
    chat_messages db1
    = filter (fun m => negb (in_scope uid "sess-a" m)) (chat_messages after_booking) /\
    appointments db1 = appointments after_booking.
Proof.
  destruct (@purge_deletes_one_scope online demo_jwt insertion_order
              bob_reads_alices_session (mkDecoded (Some "bob") (Some "user"))
              after_booking after_booking_consistent eq_refl)
    as [uid [db1 [_ [Hserve [Hrows [_ [_ Happ]]]]]]].
  exists uid, db1. split; [exact Hserve |]. split; [exact Hrows | exact Happ].
Defined.

Lemma purge_then_history_is_empty_witness :
  fst (@serve online demo_jwt insertion_order GET_messages alice_posts
         (snd (@serve online demo_jwt insertion_order DELETE_messages alice_posts
                 after_booking)))
  = Some (listed []).
Proof.
  apply (@purge_then_history_is_empty online demo_jwt insertion_order alice_posts
           (mkDecoded (Some "alice") (Some "user")) after_booking).
  - exact after_booking_consistent.
  - reflexivity.
Defined.

Lemma posted_message_is_listed_witness :
  exists rows db2 m,
    @serve online demo_jwt insertion_order GET_messages alice_posts
      (snd (@serve online demo_jwt insertion_order POST_message alice_posts empty_db))
    = (Some (listed rows), db2) /\
    In m rows /\ m_role m = "user" /\ m_session_token m = "sess-a" /\
    m_content m = Js.Str (Js.text (body_message alice_posts)).
Proof.
  apply (@posted_message_is_listed online demo_jwt insertion_order alice_posts
           (mkDecoded (Some "alice") (Some "user")) "sess-a" empty_db).
  - exact empty_db_consistent.
  - reflexivity.
  - reflexivity.
  - reflexivity.
  - reflexivity.
Defined.

Lemma free_slot_is_booked_witness :
  exists uid row,
    fst (@run offline _ (upsertUser (subject alice_confirms)) empty_db) = Done uid /\
    row = mkAppointment (appointments_seq empty_db) uid 1748858400000 "confirmed"
            (Some "Booked via chatbot") /\
    fst (@run offline _ (@post_confirm offline alice_confirms) empty_db)
    = Done (confirmed [row]).
Proof.
  destruct (@free_slot_is_booked offline alice_confirms empty_db 1748858400000
              empty_db_consistent eq_refl eq_refl)
    as [uid [row [Hup [Hrow [Hresp _]]]]].
  - vm_compute. discriminate.
  - reflexivity.
  - reflexivity.
  - reflexivity.
  - exists uid, row. split; [exact Hup |]. split; [exact Hrow | exact Hresp].
Defined.

Lemma timestamp_only_javascript_accepts_witness :
  fst (@run online _ (@post_confirm online bare_year) empty_db) = Done server_error /\
  same_bookings_and_transcript empty_db
    (snd (@run online _ (@post_confirm online bare_year) empty_db)) /\
  @select_session "sess-a" (snd (@run online _ (@post_confirm online bare_year) empty_db))
  <> [].
Proof.
  apply (@timestamp_only_javascript_accepts online bare_year empty_db).
  - exact empty_db_consistent.
  - reflexivity.
  - reflexivity.
  - vm_compute. discriminate.
  - reflexivity.
  - reflexivity.
Defined.

Lemma ensureSession_idempotent_witness :
  exists id db1,
    @run offline _ (ensureSession 1 (Some "shared")) alice_owns_shared
    = (Done (Some id), db1) /\
    (List.length (chat_sessions db1) <= S (List.length (chat_sessions alice_owns_shared)))%nat /\
    @run offline _ (ensureSession 2 (Some "shared"))
      (store (@schedule offline [] (mkSystem db1 [])))
    = (Done (Some id), store (@schedule offline [] (mkSystem db1 []))).
Proof.
  apply (@ensureSession_idempotent offline 1 2 "shared" alice_owns_shared [] []).
  - exact (@run_consistent offline _ _ empty_db empty_db_consistent).
  - reflexivity.
  - reflexivity.
Defined.



Lemma confirmation_is_listed_witness :
  exists rows db2 m,
    @serve online demo_jwt insertion_order GET_messages alice_books
      (snd (@serve online demo_jwt insertion_order POST_confirm alice_books empty_db))
    = (Some (listed rows), db2) /\
    In m rows /\ m_role m = "assistant" /\
    m_content m = Js.Str ("Confirmed your appointment for "
                          ++ Js.text (body_scheduled_at alice_books) ++ ".").
Proof.
  apply (@confirmation_is_listed online demo_jwt insertion_order alice_books
           (mkDecoded (Some "alice") (Some "user")) 1748858400000 empty_db).
  - exact empty_db_consistent.
  - reflexivity.
  - reflexivity.
  - reflexivity.
  - vm_compute. discriminate.
  - reflexivity.
  - reflexivity.
  - reflexivity.
  - reflexivity.
Defined.

Lemma session_id_survives_reloads_witness :
  Js.present (Some (fst (useSessionId "0b9d2c5e-7a41-4e0f-9c3a-5d1e8f6a2b47" None))) = true /\
  forall other,
    useSessionId other (snd (useSessionId "0b9d2c5e-7a41-4e0f-9c3a-5d1e8f6a2b47" None))
    = (fst (useSessionId "0b9d2c5e-7a41-4e0f-9c3a-5d1e8f6a2b47" None),
       snd (useSessionId "0b9d2c5e-7a41-4e0f-9c3a-5d1e8f6a2b47" None)).
Proof.
  apply (session_id_survives_reloads "0b9d2c5e-7a41-4e0f-9c3a-5d1e8f6a2b47" None).
  discriminate.
Defined.

(** ** Two confirm calls racing for one slot *)

Section RaceFacts.

Context `{Platform}.

Lemma booked_at_most_one (t : Z) (db : DB) :
  single_booking db -> (List.length (booked t db) <= 1)%nat.
Proof.
  unfold single_booking, booked. induction (appointments db) as [| a l IH]; simpl;
    [lia |].
  destruct (is_confirmed a) eqn:Hc; simpl.
  - intros Hnd. inversion Hnd as [| ? ? Hnotin Hrest]; subst.
    destruct (a_scheduled_at a =? t) eqn:Ht; simpl; [| apply IH; exact Hrest].
    apply Z.eqb_eq in Ht.
    assert (Hnone : filter (fun b => (a_scheduled_at b =? t) && is_confirmed b) l = []).
    { destruct (filter (fun b => (a_scheduled_at b =? t) && is_confirmed b) l)
        as [| b rest] eqn:Hf; [reflexivity |].
      exfalso. apply Hnotin.
      assert (Hb : In b (filter (fun b => (a_scheduled_at b =? t) && is_confirmed b) l))
        by (rewrite Hf; left; reflexivity).
      apply filter_In in Hb. destruct Hb as [Hb Hprops].
      apply andb_prop in Hprops. destruct Hprops as [Hbt Hbc]. apply Z.eqb_eq in Hbt.
      apply in_map_iff. exists b. split; [congruence |].
      apply filter_In. split; assumption. }
    rewrite Hnone. simpl. lia.
  - rewrite andb_false_r. exact IH.
Qed.

Lemma exec_counts_booking {X : Type} (op : Op X) (t : Z) (db : DB) :
  (List.length (booked t db)
   + (if booked_event t (event op (fst (exec op db))) then 1 else 0)
   <= List.length (booked t (snd (exec op db))))%nat.
Proof.
  destruct op as [email name | token | user_id token | user_id token role content meta
                 | at_ | user_id at_ | url body];
    cbn [exec fst snd booked_event event]; try lia.
  - destruct (upsert_user_frame email name db) as [_ [_ Ha]].
    unfold booked. rewrite Ha. lia.
  - assert (Ha : appointments (snd (insert_session user_id token db)) = appointments db).
    { unfold insert_session. destruct (existsb _ (chat_sessions db)); [reflexivity |].
      destruct (negb (user_exists user_id db)); reflexivity. }
    unfold booked. rewrite Ha. lia.
  - unfold booked. rewrite insert_message_frame. lia.
  - unfold insert_appointment.
    destruct (pg_timestamp at_) as [t' |]; cbn [fst snd]; [| lia].
    destruct (existsb _ (appointments db)); cbn [fst snd];
      [unfold booked; cbn [appointments bump_appointments]; lia |].
    destruct (booked t' db); cbn [fst snd];
      [| unfold booked; cbn [appointments bump_appointments]; lia].
    destruct (negb (user_exists user_id db)); cbn [fst snd];
      [unfold booked; cbn [appointments bump_appointments]; lia |].
    unfold booked. cbn [appointments set_appointments bump_appointments].
    rewrite filter_app, length_app. cbn [filter a_scheduled_at is_confirmed a_status].
    destruct (t' =? t); simpl; lia.
Qed.

Lemma list_sum_replace_nth {A : Type} (f : A -> nat) (i : nat) (x y : A) (l : list A) :
  nth_error l i = Some x ->
  (list_sum (map f (replace_nth i y l)) + f x = list_sum (map f l) + f y)%nat.
Proof.
  revert i. induction l as [| z l IH]; intros [| i]; simpl; try discriminate.
  - intros Hx. injection Hx as ->. lia.
  - intros Hx. specialize (IH i Hx). lia.
Qed.

Lemma list_sum_two {A : Type} (f : A -> nat) (i j : nat) (x y : A) (l : list A) :
  i <> j -> nth_error l i = Some x -> nth_error l j = Some y ->
  (f x + f y <= list_sum (map f l))%nat.
Proof.
  revert i j. induction l as [| z l IH]; intros [| i] [| j] Hij Hx Hy; simpl in *;
    try discriminate; try contradiction.
  - injection Hx as ->. clear IH.
    assert (Hone : forall k l', nth_error l' k = Some y -> (f y <= list_sum (map f l'))%nat).
    { intros k l'. revert k. induction l' as [| w l' IHl]; intros [| k] Hk; simpl in *;
        try discriminate.
      - injection Hk as ->. lia.
      - specialize (IHl k Hk). lia. }
    specialize (Hone j l Hy). lia.
  - injection Hy as ->.
    assert (Hone : forall k l', nth_error l' k = Some x -> (f x <= list_sum (map f l'))%nat).
    { intros k l'. revert k. induction l' as [| w l' IHl]; intros [| k] Hk; simpl in *;
        try discriminate.
      - injection Hk as ->. lia.
      - specialize (IHl k Hk). lia. }
    specialize (Hone i l Hx). lia.
  - assert (Hne : i <> j) by (intros ->; apply Hij; reflexivity).
    specialize (IH i j Hne Hx Hy). lia.
Qed.

Lemma step_counts_bookings (t : Z) (i : nat) (s : System) :
  (bookings_seen_by_all t s <= List.length (booked t (store s)))%nat ->
  (bookings_seen_by_all t (step i s) <= List.length (booked t (store (step i s))))%nat.
Proof.
  unfold bookings_seen_by_all, step. intros Hinv.
  destruct (nth_error (pool s) i) as [[c l] |] eqn:Hi; [| exact Hinv].
  destruct c as [a | e | X op k]; try exact Hinv.
  pose proof (exec_counts_booking op t (store s)) as Hexec.
  destruct (exec op (store s)) as [r db1]. cbn [fst snd] in Hexec.
  cbn [store pool].
  pose proof (list_sum_replace_nth (bookings_seen t) i (mkThread (Await op k) l)
                (mkThread (k r) (l ++ [event op r])) (pool s) Hi) as Hsum.
  unfold bookings_seen in Hsum at 2 4. cbn [seen] in Hsum.
  rewrite filter_app, length_app in Hsum. cbn [filter] in Hsum.
  destruct (booked_event t (event op r)); cbn [List.length] in Hsum; lia.
Qed.

Lemma schedule_counts_bookings (t : Z) (order : list nat) (s : System) :
  (bookings_seen_by_all t s <= List.length (booked t (store s)))%nat ->
  (bookings_seen_by_all t (schedule order s)
   <= List.length (booked t (store (schedule order s))))%nat.
Proof.
  revert s. induction order as [| i order IH]; intros s Hinv; simpl; [exact Hinv |].
  apply IH. apply step_counts_bookings. exact Hinv.
Qed.

Lemma spawn_counts_nothing (t : Z) (ps : list (Prog Response)) (db : DB) :
  bookings_seen_by_all t (mkSystem db (spawn ps)) = 0%nat.
Proof.
  unfold bookings_seen_by_all, spawn. cbn [pool]. rewrite map_map.
  induction ps as [| p ps IH]; [reflexivity |]. simpl. exact IH.
Qed.

(** A confirm handler that answers 'confirmed' saw its insert accepted. *)
Lemma confirmed_saw_insert (req : Request) (l : list Event) (rows : list Appointment) :
  completes (post_confirm req) l (Done (confirmed rows)) ->
  exists uid ins,
    In (event (InsertAppointment uid (Js.text (scheduled_at req))) (Ok ins)) l.
Proof.
  unfold post_confirm. intros Hc. apply completes_try_catch in Hc.
  destruct Hc as [[a [Hbody Hout]] | [e [l1 [l2 [_ [_ Hh]]]]]].
  2: { simpl in Hh. destruct Hh as [_ Hh]. discriminate. }
  injection Hout as <-.
  destruct (negb (Js.present (session_id req)) || negb (Js.present (scheduled_at req))).
  { simpl in Hbody. destruct Hbody as [_ Habs]. discriminate. }
  destruct (Date_parse (Js.text (scheduled_at req))).
  2: { simpl in Hbody. destruct Hbody as [_ Habs]. discriminate. }
  apply completes_bind in Hbody.
  destruct Hbody as [[uid [l1 [l2 [-> [_ Hbody]]]]] | [e [_ Habs]]]; [| discriminate].
  apply completes_bind in Hbody.
  destruct Hbody as [[sess [l3 [l4 [-> [_ Hbody]]]]] | [e [_ Habs]]]; [| discriminate].
  destruct (refused (confirm req)).
  { simpl in Hbody. destruct Hbody as [_ Habs]. discriminate. }
  apply completes_bind in Hbody.
  destruct Hbody as [[found [l5 [l6 [-> [_ Hbody]]]]] | [e [_ Habs]]]; [| discriminate].
  destruct (0 <? List.length found)%nat.
  { simpl in Hbody. destruct Hbody as [_ Habs]. discriminate. }
  apply completes_bind in Hbody.
  destruct Hbody as [[ins [l7 [l8 [-> [Hins _]]]]] | [e [_ Habs]]]; [| discriminate].
  apply completes_await in Hins. destruct Hins as [r [-> Hr]].
  destruct r as [rows' | e]; [| discriminate]. injection Hr as <-.
  exists uid, ins. rewrite !in_app_iff. right. right. right. left. left. reflexivity.
Qed.

(** X21: two confirm calls for the same timestamp are never both answered
    'confirmed': from a store that satisfies its constraints, under every
    interleaving with each other and with any other handlers, when one of
    them receives 200 'confirmed' the other one does not. *)
Theorem never_two_winners (ps : list (Prog Response)) (order : list nat) (db : DB)
    (i j : nat) (reqI reqJ : Request) (t : Z) (rowsI : list Appointment) :
  consistent db ->
  i <> j ->
  nth_error ps i = Some (post_confirm reqI) ->
  nth_error ps j = Some (post_confirm reqJ) ->
  pg_timestamp (Js.text (scheduled_at reqI)) = Some t ->
  pg_timestamp (Js.text (scheduled_at reqJ)) = Some t ->
  response_of (schedule order (mkSystem db (spawn ps))) i = Some (confirmed rowsI) ->
  forall rowsJ,
    response_of (schedule order (mkSystem db (spawn ps))) j <> Some (confirmed rowsJ).
Proof.
  intros Hdb Hij Hpi Hpj Hti Htj Hri rowsJ Hrj.
  set (final := schedule order (mkSystem db (spawn ps))) in *.
  pose proof (finished_completes ps order db i _ _ Hpi Hri) as Hci.
  pose proof (finished_completes ps order db j _ _ Hpj Hrj) as Hcj.
  fold final in Hci, Hcj.
  apply confirmed_saw_insert in Hci. destruct Hci as [ui [insi Hini]].
  apply confirmed_saw_insert in Hcj. destruct Hcj as [uj [insj Hinj]].
  assert (Hcount : (bookings_seen_by_all t final <= List.length (booked t (store final)))%nat).
  { apply schedule_counts_bookings. rewrite spawn_counts_nothing. lia. }
  assert (Hone : (List.length (booked t (store final)) <= 1)%nat).
  { apply booked_at_most_one. apply one_per_slot. apply schedule_consistent. exact Hdb. }
  unfold seen_by in Hini, Hinj.
  destruct (nth_error (pool final) i) as [ti |] eqn:Hthi; [| destruct Hini].
  destruct (nth_error (pool final) j) as [tj |] eqn:Hthj; [| destruct Hinj].
  pose proof (list_sum_two (bookings_seen t) i j ti tj (pool final) Hij Hthi Hthj) as Htwo.
  fold (bookings_seen_by_all t final) in Htwo.
  assert (Hwin : forall thread uid at_ ins,
            pg_timestamp at_ = Some t ->
            In (event (InsertAppointment uid at_) (Ok ins)) (seen thread) ->
            (1 <= bookings_seen t thread)%nat).
  { intros thread uid at_ ins Hat Hin. unfold bookings_seen.
    assert (Hf : In (event (InsertAppointment uid at_) (Ok ins))
                    (filter (booked_event t) (seen thread))).
    { apply filter_In. split; [exact Hin |]. cbn [booked_event event].
      rewrite Hat. apply Z.eqb_refl. }
    destruct (filter (booked_event t) (seen thread)); [destruct Hf | simpl; lia]. }
  pose proof (Hwin ti ui _ insi Hti Hini) as Hwi.
  pose proof (Hwin tj uj _ insj Htj Hinj) as Hwj.
  lia.
Qed.

End RaceFacts.

Lemma never_two_winners_witness :
  response_of raced 1
  <> Some (confirmed [mkAppointment 2 2 1748858400000 "confirmed"
                        (Some "Booked via chatbot")]).
Proof.
  apply (@never_two_winners offline
           [@post_confirm offline alice_confirms; @post_confirm offline bob_confirms]
           both_prechecked_first empty_db 0%nat 1%nat alice_confirms bob_confirms
           1748858400000
           [mkAppointment 1 1 1748858400000 "confirmed" (Some "Booked via chatbot")]).
  - exact empty_db_consistent.
  - discriminate.
  - reflexivity.
  - reflexivity.
  - reflexivity.
  - reflexivity.
  - vm_compute. reflexivity.
Defined.
